(** * GenAds backend: the HTTP handlers of [main.py] over a document store

    The handlers of [src/main.py] and the record models of [src/schemas.py]
    are embedded as functions over an explicit store.  The module-wide
    handle [db] is threaded through every handler as state
    ([None] when the database was not initialised), raised exceptions are
    values, and an HTTP answer is read off the outcome of a handler. *)

From Stdlib Require Import ZArith NArith Ascii String Strings.Byte List.
From Stdlib Require Import Sorting.Sorted Permutation.
From stdpp Require Import gmap strings list fin_maps.

Local Open Scope string_scope.

(** ** BSON object identifiers

    [bson.ObjectId] holds bytes, twelve of them in every identifier the store
    hands out.  [str(oid)] prints two lower-case hexadecimal digits per byte.
    [ObjectId(s)] takes a text of exactly 24 characters and reads it with
    [bytes.fromhex], which takes two hexadecimal digits (either case) per
    byte and skips ASCII whitespace between bytes; any other text raises
    [InvalidId]. *)
Module ObjectId.

Definition t := list Byte.byte.

Definition width : N := 2 ^ 96.

Definition hex_char (d : N) : ascii :=
if (d <? 10)%N then ascii_of_N (48 + d) else ascii_of_N (87 + d).

Definition hex_value (c : ascii) : option N :=
let n := N_of_ascii c in
if ((48 <=? n) && (n <=? 57))%N then Some (n - 48)%N
else if ((97 <=? n) && (n <=? 102))%N then Some (n - 87)%N
else if ((65 <=? n) && (n <=? 70))%N then Some (n - 55)%N
else None.

(** ASCII whitespace: tab, line feed, vertical tab, form feed, carriage
  return and space. *)
Definition is_space (c : ascii) : bool :=
let n := N_of_ascii c in
((9 <=? n) && (n <=? 13))%N || (n =? 32)%N.

(** [binascii.hexlify] *)
Fixpoint hexlify (bs : list Byte.byte) : string :=
match bs with
| [] => EmptyString
| b :: bs' =>
    String (hex_char (Byte.to_N b / 16)%N)
           (String (hex_char (Byte.to_N b mod 16)%N) (hexlify bs'))
end.

(** [bytes.fromhex]: whitespace is skipped in front of a byte, never between
  its two digits. *)
Fixpoint fromhex (s : string) : option (list Byte.byte) :=
match s with
| EmptyString => Some []
| String c s' =>
    if is_space c then fromhex s'
    else
      match hex_value c, s' with
      | Some hi, String c' s'' =>
          match hex_value c' with
          | Some lo =>
              match Byte.of_N (hi * 16 + lo), fromhex s'' with
              | Some b, Some bs => Some (b :: bs)
              | _, _ => None
              end
          | None => None
          end
      | _, _ => None
      end
end.

(** [str(oid)] *)
Definition str (o : t) : string := hexlify o.

(** [ObjectId(s)]; [None] stands for the [InvalidId] it raises. *)
Definition parse (s : string) : option t :=
if (String.length s =? 24)%nat then fromhex s else None.

(** The twelve bytes that spell a number below [width], most significant
  byte first: used to name identifiers. *)
Definition byte_of (n : N) : Byte.byte :=
default Byte.x00 (Byte.of_N (n mod 256)).

Fixpoint be_bytes (k : nat) (n : N) (rest : list Byte.byte) : list Byte.byte :=
match k with
| O => rest
| S k' => be_bytes k' (n / 256)%N (byte_of n :: rest)
end.

Definition of_N (n : N) : t := be_bytes 12 n [].

Fixpoint to_N_from (bs : list Byte.byte) (acc : N) : N :=
match bs with
| [] => acc
| b :: bs' => to_N_from bs' (acc * 256 + Byte.to_N b)%N
end.

Definition to_N (o : t) : N := to_N_from o 0.

End ObjectId.

#[global] Instance byte_eq_dec : EqDecision Byte.byte := Byte.byte_eq_dec.

(** ** Documents *)

(** The values the handlers store and read.  [VUrl] is a [Url] object of
    the validation library, kept with its normalised text: it is not a
    text. *)
Inductive value : Type :=
  | VNull
  | VInt (z : Z)
  | VStr (s : string)
  | VUrl (text : string)
  | VOid (o : ObjectId.t)
  | VDate (millis : Z).

#[global] Instance value_eq_dec : EqDecision value.
Proof. solve_decision. Defined.

(** A Python [dict] with text keys: what handlers build and return. *)
Abbreviation dict := (gmap string value).

(** A stored document: the store gives every document an [_id]. *)
Record document : Type := Document { _id : ObjectId.t; fields : dict }.

#[global] Instance document_eq_dec : EqDecision document.
Proof. solve_decision. Defined.

(** The [dict] the driver hands back for a stored document: it always
    carries the key ["_id"]. *)
Definition to_dict (d : document) : dict := <["_id" := VOid (_id d)]> (fields d).

Abbreviation collection := (list document).

(** [db]: collections by name; a collection never written to is empty. *)
Abbreviation database := (gmap string (list document)).

Definition coll (d : database) (name : string) : collection :=
  default [] (d !! name).

(** Modelled from the spec: the module-wide handle [db] is made in
    [database.py], which is not among the sources.  The spec has it
    initialised once at process start, or not at all when the store is
    unavailable: [None] is the handle that was not initialised, and an
    initialised handle is the driver's database object, on which the
    handlers call [find_one], [count_documents], [update_one] and
    [list_collection_names]. *)
Abbreviation handle := (option (gmap string (list document))).

(** ** Queries of the document store

    The filters the handlers write: a field equal to a value, or a field
    among listed values ([$in]); a field the document lacks reads as null. *)
Inductive cond : Type :=
  | Is (v : value)
  | OneOf (vs : list value).

Abbreviation query := (list (string * cond)).

Definition field (k : string) (d : dict) : value := default VNull (d !! k).

Definition cond_holds (c : cond) (v : value) : bool :=
  match c with
  | Is w => bool_decide (v = w)
  | OneOf ws => bool_decide (v ∈ ws)
  end.

Definition matches (q : query) (d : document) : bool :=
  forallb (fun kc => cond_holds (snd kc) (field (fst kc) (to_dict d))) q.

(** [collection.find(q)]: the matching documents in their stored order. *)
Definition find (q : query) (c : collection) : list document :=
  List.filter (matches q) c.

(** [collection.find_one(q)]: the first match, handed back as its [dict]. *)
Definition find_one (q : query) (c : collection) : option document :=
  List.find (matches q) c.

(** [collection.count_documents(q)] *)
Definition count_documents (q : query) (c : collection) : nat :=
  length (find q c).

(** [{"$set": {k: v}}] on one document. *)
Definition set_field (k : string) (v : value) (d : document) : document :=
  {| _id := _id d; fields := <[k := v]> (fields d) |}.

(** [collection.update_one(q, {"$set": {k: v}})]: the first match only,
    and nothing when no document matches. *)
Fixpoint update_one (q : query) (k : string) (v : value) (c : collection)
  : collection :=
  match c with
  | [] => []
  | d :: c' =>
      if matches q d then set_field k v d :: c'
      else d :: update_one q k v c'
  end.

(** The order in which the store compares values of a sort key: by kind
    first (null, numbers, text, objects, object ids, dates), then within
    the kind; object ids byte by byte, which is the order of their
    hexadecimal texts. *)
Definition bson_rank (v : value) : Z :=
  match v with
  | VNull => 1
  | VInt _ => 2
  | VStr _ => 3
  | VUrl _ => 4
  | VOid _ => 5
  | VDate _ => 6
  end.

Definition bson_compare (a b : value) : comparison :=
  match a, b with
  | VInt x, VInt y => Z.compare x y
  | VStr x, VStr y => String.compare x y
  | VUrl x, VUrl y => String.compare x y
  | VOid x, VOid y => String.compare (ObjectId.str x) (ObjectId.str y)
  | VDate x, VDate y => Z.compare x y
  | _, _ => Z.compare (bson_rank a) (bson_rank b)
  end.

Definition bson_leb (a b : value) : bool :=
  match bson_compare a b with
  | Gt => false
  | _ => true
  end.

(** [cursor.sort(key, -1)]: largest key first. *)
Fixpoint insert_desc (key : string) (d : document) (l : list document)
  : list document :=
  match l with
  | [] => [d]
  | e :: l' =>
      if bson_leb (field key (to_dict e)) (field key (to_dict d))
      then d :: l
      else e :: insert_desc key d l'
  end.

Definition sort_desc (key : string) (l : list document) : list document :=
  foldr (insert_desc key) [] l.

(** [cursor.limit(n)] *)
Definition limit (n : nat) (l : list document) : list document := take n l.

(** ** Exceptions, outcomes and the state the handlers run in *)

Inductive exn : Type :=
  | HTTPException (status_code : Z) (detail : string)
  | ValidationError
  | InvalidId
  | NotImplementedError
  | DatabaseNotAvailable.

Inductive result (A : Type) : Type :=
  | Return (a : A)
  | Raise (e : exn).

Arguments Return {A} a.
Arguments Raise {A} e.

(** A handler step: reads and may replace the [db] handle, and either
    returns or raises.  What was written before a raise stays written. *)
Definition M (A : Type) : Type := handle -> result A * handle.

Definition ret {A} (a : A) : M A := fun db => (Return a, db).

Definition raise {A} (e : exn) : M A := fun db => (Raise e, db).

Definition bind {A B} (m : M A) (k : A -> M B) : M B :=
  fun db =>
    match m db with
    | (Return a, db') => k a db'
    | (Raise e, db') => (Raise e, db')
    end.

Definition get_db : M handle := fun db => (Return db, db).

Definition put_db (d : database) : M unit := fun _ => (Return tt, Some d).

(** [try: m except Exception: h] *)
Definition try_except {A} (m : M A) (h : M A) : M A :=
  fun db =>
    match m db with
    | (Return a, db') => (Return a, db')
    | (Raise _, db') => h db'
    end.

Notation "'let*' x ':=' m 'in' k" := (bind m (fun x => k))
  (at level 10, x name, m at level 100, k at level 200).

(** The answer the framework gives for an outcome: a returned value is sent
    with 200, an [HTTPException] with its own status code, and any other
    exception that leaves a handler is answered 500 Internal Server Error. *)
Definition status_of {A} (r : result A) : Z :=
  match r with
  | Return _ => 200
  | Raise (HTTPException c _) => c
  | Raise _ => 500
  end.

Definition is_client_error {A} (r : result A) : bool :=
  (400 <=? status_of r)%Z && (status_of r <? 500)%Z.

Definition is_server_fault {A} (r : result A) : bool :=
  (500 <=? status_of r)%Z.

(** Python truthiness of an optional [dict]: [None] and [{}] are false. *)
Definition truthy (o : option dict) : bool :=
  match o with
  | Some d => negb (bool_decide (d = ∅))
  | None => false
  end.

Definition truthy_dict (d : dict) : bool := truthy (Some d).

(** [bool(db)], as in [.. if db else ..]: [None] is false, and the driver's
    database object refuses a truth test with [NotImplementedError] (it asks
    to be compared with [None] instead). *)
Definition db_truth (db : handle) : M bool :=
  match db with
  | Some _ => raise NotImplementedError
  | None => ret false
  end.

(** [ObjectId(s)] as a step that may raise. *)
Definition ObjectId_new (s : string) : M ObjectId.t :=
  match ObjectId.parse s with
  | Some o => ret o
  | None => raise InvalidId
  end.

(** ** Library functions the handlers call

    Taken as given: the SHA-256 hex digest of a text, what the validation
    library accepts as an e-mail address ([EmailStr]), and what it makes of
    a text given as an absolute http(s) URL ([HttpUrl]): nothing when it
    refuses the text, else a [Url] object whose normalised text may differ
    from the text submitted. *)
Class Library : Type := {
  sha256_hexdigest : string -> string;
  EmailStr : string -> bool;
  HttpUrl : string -> option string
}.

(** A record model that can be dumped to a [dict] ([model_dump]). *)
Class BaseModel (A : Type) : Type := model_dump : A -> dict.

Definition opt_text (o : option string) : value :=
  match o with
  | Some s => VStr s
  | None => VNull
  end.

Definition opt_url (o : option string) : value :=
  match o with
  | Some s => VUrl s
  | None => VNull
  end.

(** ** Record models ([schemas.py]) and request models ([main.py]) *)

Module SignUpRequest.
Record t : Type := { name : string; email : string; password : string }.
End SignUpRequest.

Module SignInRequest.
Record t : Type := { email : string; password : string }.
End SignInRequest.

Module User.
Record t : Type := {
  name : string;
  email : string;
  password_hash : string;
  avatar_url : option string
}.

Section new.
Context `{Library}.

(** [User(name=.., email=.., password_hash=..)] *)
Definition new (name email password_hash : string) : M t :=
  if EmailStr email
  then ret {| name := name; email := email;
              password_hash := password_hash; avatar_url := None |}
  else raise ValidationError.
End new.

#[global] Instance dump : BaseModel t := fun u =>
  list_to_map [
    ("name", VStr (name u));
    ("email", VStr (email u));
    ("password_hash", VStr (password_hash u));
    ("avatar_url", opt_text (avatar_url u))
  ].
End User.

Module StepThree.
Record t : Type := {
  owner_email : string;
  project_name : string;
  brand_name : string;
  brand_detail : string;
  creative_prompt : string;
  target_audience : string;
  video_style : string;
  aspect_ratio : string;
  duration_seconds : Z;
  product_image_url : option string;
  brand_logo_url : option string;
  brand_guideline_url : option string;
  reference_image_url : option string
}.

#[global] Instance dump : BaseModel t := fun j =>
  list_to_map [
    ("owner_email", VStr (owner_email j));
    ("project_name", VStr (project_name j));
    ("brand_name", VStr (brand_name j));
    ("brand_detail", VStr (brand_detail j));
    ("creative_prompt", VStr (creative_prompt j));
    ("target_audience", VStr (target_audience j));
    ("video_style", VStr (video_style j));
    ("aspect_ratio", VStr (aspect_ratio j));
    ("duration_seconds", VInt (duration_seconds j));
    ("product_image_url", opt_text (product_image_url j));
    ("brand_logo_url", opt_text (brand_logo_url j));
    ("brand_guideline_url", opt_text (brand_guideline_url j));
    ("reference_image_url", opt_text (reference_image_url j))
  ].
End StepThree.

Module VideoJob.
Record t : Type := {
  owner_email : string;
  project_id : option string;
  project_name : string;
  brand_name : string;
  brand_detail : string;
  creative_prompt : string;
  target_audience : string;
  video_style : string;
  aspect_ratio : string;
  duration_seconds : Z;
  product_image_url : option string;
  brand_logo_url : option string;
  brand_guideline_url : option string;
  reference_image_url : option string;
  status : string;
  thumbnail_url : option string;
  video_url : option string;
  notes : option string
}.

(** [Literal["1:1","9:16","16:9","4:5","21:9"]] *)
Definition aspect_ratios : list string := ["1:1"; "9:16"; "16:9"; "4:5"; "21:9"].

(** [Literal["queued","processing","completed","failed","finalized"]] *)
Definition statuses : list string :=
  ["queued"; "processing"; "completed"; "failed"; "finalized"].

(** [Field(15, ge=5, le=120)] *)
Definition duration_ok (z : Z) : bool := (5 <=? z)%Z && (z <=? 120)%Z.

Section new.
Context `{Library}.

(** [Optional[HttpUrl]]: whether the field passes, and the [Url] it then
    holds. *)
Definition url_ok (o : option string) : bool :=
  match o with
  | Some u => bool_decide (is_Some (HttpUrl u))
  | None => true
  end.

Definition url_of (o : option string) : option string :=
  match o with
  | Some u => HttpUrl u
  | None => None
  end.

(** What the model checks on the fields a [StepThree] dump carries. *)
Definition constraints_ok (j : StepThree.t) (status : string) : bool :=
  EmailStr (StepThree.owner_email j)
  && bool_decide (StepThree.aspect_ratio j ∈ aspect_ratios)
  && duration_ok (StepThree.duration_seconds j)
  && url_ok (StepThree.product_image_url j)
  && url_ok (StepThree.brand_logo_url j)
  && url_ok (StepThree.brand_guideline_url j)
  && url_ok (StepThree.reference_image_url j)
  && bool_decide (status ∈ statuses).

(** The [VideoJob] built from the dump of a [StepThree] and a status:
    the fields the dump does not carry take their defaults, a URL field
    holds the [Url] the library makes of the text, and a field that breaks
    its constraint raises the library's [ValidationError]. *)
Definition new (j : StepThree.t) (status : string) : M t :=
  if constraints_ok j status
  then ret {|
    owner_email := StepThree.owner_email j;
    project_id := None;
    project_name := StepThree.project_name j;
    brand_name := StepThree.brand_name j;
    brand_detail := StepThree.brand_detail j;
    creative_prompt := StepThree.creative_prompt j;
    target_audience := StepThree.target_audience j;
    video_style := StepThree.video_style j;
    aspect_ratio := StepThree.aspect_ratio j;
    duration_seconds := StepThree.duration_seconds j;
    product_image_url := url_of (StepThree.product_image_url j);
    brand_logo_url := url_of (StepThree.brand_logo_url j);
    brand_guideline_url := url_of (StepThree.brand_guideline_url j);
    reference_image_url := url_of (StepThree.reference_image_url j);
    status := status;
    thumbnail_url := None;
    video_url := None;
    notes := None |}
  else raise ValidationError.
End new.

#[global] Instance dump : BaseModel t := fun v =>
  list_to_map [
    ("owner_email", VStr (owner_email v));
    ("project_id", opt_text (project_id v));
    ("project_name", VStr (project_name v));
    ("brand_name", VStr (brand_name v));
    ("brand_detail", VStr (brand_detail v));
    ("creative_prompt", VStr (creative_prompt v));
    ("target_audience", VStr (target_audience v));
    ("video_style", VStr (video_style v));
    ("aspect_ratio", VStr (aspect_ratio v));
    ("duration_seconds", VInt (duration_seconds v));
    ("product_image_url", opt_url (product_image_url v));
    ("brand_logo_url", opt_url (brand_logo_url v));
    ("brand_guideline_url", opt_url (brand_guideline_url v));
    ("reference_image_url", opt_url (reference_image_url v));
    ("status", VStr (status v));
    ("thumbnail_url", opt_text (thumbnail_url v));
    ("video_url", opt_text (video_url v));
    ("notes", opt_text (notes v))
  ].
End VideoJob.

(** ** The persistence layer *)

(** Modelled from the spec: the new unique identifier [create_document]
    assigns, here the first of the twelve-byte identifiers that spell
    [0, 1, .., length c] that no document of the collection carries. *)
Definition new_oid (c : collection) : ObjectId.t :=
  default (ObjectId.of_N 0)
    (List.find (fun o => negb (bool_decide (o ∈ _id <$> c)))
               ((fun k => ObjectId.of_N (N.of_nat k)) <$> seq 0 (S (length c)))).

(** Modelled from the spec: [database.py], which holds the handle [db] and
    [create_document], is not among the sources.  The spec gives
    [create(collection, record)] as: assign a new unique identifier, insert
    the record, return the identifier; and has every write refuse with a
    server fault when the store is unavailable. *)
Definition create_document `{BaseModel A} (collection_name : string) (data : A)
  : M string :=
  let* db := get_db in
  match db with
  | None => raise DatabaseNotAvailable
  | Some d =>
      let c := coll d collection_name in
      let oid := new_oid c in
      let doc := {| _id := oid; fields := model_dump data |} in
      let* _ := put_db (<[collection_name := (c ++ [doc])%list]> d) in
      ret (ObjectId.str oid)
  end.

(** ** The handlers of [main.py] *)

(** [doc["id"] = str(doc["_id"]); doc.pop("_id", None)] on the [dict] of a
    stored document. *)
Definition with_id (d : document) : dict :=
  delete "_id" (<["id" := VStr (ObjectId.str (_id d))]> (to_dict d)).

(** The answer of [dashboard_summary]. *)
Record Summary : Type := {
  total : nat;
  processing : nat;
  videos : list dict
}.

Section handlers.
Context `{Library}.

(** [POST /auth/signup] *)
Definition signup (payload : SignUpRequest.t) : M dict :=
  let* db := get_db in
  let* db_is_true := db_truth db in
  let existing :=
    match db with
    | Some d =>
        if db_is_true
        then to_dict <$> find_one [("email", Is (VStr (SignUpRequest.email payload)))]
                                  (coll d "user")
        else None
    | None => None
    end in
  if truthy existing
  then raise (HTTPException 400 "Email already registered")
  else
    let password_hash := sha256_hexdigest (SignUpRequest.password payload) in
    let* user := User.new (SignUpRequest.name payload)
                          (SignUpRequest.email payload) password_hash in
    let* _id := create_document "user" user in
    ret (list_to_map [
      ("id", VStr _id);
      ("name", VStr (User.name user));
      ("email", VStr (User.email user))
    ]).

(** [POST /auth/signin] *)
Definition signin (payload : SignInRequest.t) : M dict :=
  let* db := get_db in
  match db with
  | None => raise (HTTPException 500 "Database not available")
  | Some d =>
      let u := find_one [("email", Is (VStr (SignInRequest.email payload)))]
                        (coll d "user") in
      match u with
      | None => raise (HTTPException 401 "Invalid credentials")
      | Some u =>
          let u := to_dict u in
          if negb (truthy_dict u)
          then raise (HTTPException 401 "Invalid credentials")
          else if bool_decide
                    (field "password_hash" u ≠
                     VStr (sha256_hexdigest (SignInRequest.password payload)))
          then raise (HTTPException 401 "Invalid credentials")
          else ret (list_to_map [
            ("message", VStr "signed_in");
            ("email", VStr (SignInRequest.email payload));
            ("name", field "name" u);
            ("avatar_url", field "avatar_url" u)
          ])
      end
  end.

(** [GET /dashboard/summary] *)
Definition dashboard_summary (email : string) : M Summary :=
  let* db := get_db in
  match db with
  | None => raise (HTTPException 500 "Database not available")
  | Some d =>
      let jobs := coll d "videojob" in
      let total := count_documents [("owner_email", Is (VStr email))] jobs in
      let processing :=
        count_documents
          [("owner_email", Is (VStr email));
           ("status", OneOf [VStr "queued"; VStr "processing"])] jobs in
      let latest_docs :=
        limit 20 (sort_desc "created_at"
                    (find [("owner_email", Is (VStr email))] jobs)) in
      ret {| total := total; processing := processing;
             videos := with_id <$> latest_docs |}
  end.

(** [POST /video/create] *)
Definition create_video (job : StepThree.t) : M dict :=
  let* vj := VideoJob.new job "processing" in
  let* _id := create_document "videojob" vj in
  ret (list_to_map [("id", VStr _id); ("status", VStr (VideoJob.status vj))]).

(** [GET /video/{job_id}] *)
Definition get_video (job_id : string) : M dict :=
  let* db := get_db in
  match db with
  | None => raise (HTTPException 500 "Database not available")
  | Some d =>
      let* doc :=
        try_except
          (let* oid := ObjectId_new job_id in
           ret (find_one [("_id", Is (VOid oid))] (coll d "videojob")))
          (ret None) in
      match doc with
      | None => raise (HTTPException 404 "Not found")
      | Some doc =>
          if negb (truthy_dict (to_dict doc))
          then raise (HTTPException 404 "Not found")
          else ret (with_id doc)
      end
  end.

(** [POST /video/{job_id}/finalize] *)
Definition finalize_video (job_id : string) : M dict :=
  let* db := get_db in
  match db with
  | None => raise (HTTPException 500 "Database not available")
  | Some d =>
      let* _ :=
        try_except
          (let* oid := ObjectId_new job_id in
           put_db (alter (update_one [("_id", Is (VOid oid))]
                                     "status" (VStr "finalized"))
                         "videojob" d))
          (raise (HTTPException 400 "Invalid id")) in
      ret (list_to_map [("id", VStr job_id); ("status", VStr "finalized")])
  end.

End handlers.

(** ** The diagnostic handler of [main.py] *)

(** The answer of [test_database]. *)
Module Diagnostic.
Record t : Type := {
  backend : string;
  database : string;
  database_url : option string;
  database_name : option string;
  connection_status : string;
  collections : list string
}.
End Diagnostic.

(** What [db.list_collection_names()] gives the handler: the names, or an
    exception with its text. *)
Inductive listing : Type :=
  | Listed (names : list string)
  | ListingFailed (message : string).

(** Python truthiness of [os.getenv(..)]: unset and empty are false. *)
Definition env_set (v : option string) : bool :=
  match v with
  | Some (String _ _) => true
  | _ => false
  end.

(** [s[:n]] on a text held as UTF-8 bytes: the bytes of its first [n]
    characters.  A byte of the form 10xxxxxx continues a character. *)
Definition is_continuation (c : ascii) : bool :=
  let k := N_of_ascii c in (128 <=? k)%N && (k <? 192)%N.

Fixpoint utf8_take (n : nat) (s : string) : string :=
  match s with
  | EmptyString => EmptyString
  | String c s' =>
      if is_continuation c then String c (utf8_take n s')
      else
        match n with
        | O => EmptyString
        | S n' => String c (utf8_take n' s')
        end
  end.

(** The number of characters of a text held as UTF-8 bytes. *)
Fixpoint utf8_length (s : string) : nat :=
  match s with
  | EmptyString => O
  | String c s' =>
      if is_continuation c then utf8_length s' else S (utf8_length s')
  end.

(** [GET /test].  The two environment variables and the driver's answer to
    the listing are inputs.  Nothing in the outer [try] can raise but the
    listing, which the inner [try] catches. *)
Definition test_database (DATABASE_URL DATABASE_NAME : option string)
           (names : listing) : M Diagnostic.t :=
  let* db := get_db in
  match db with
  | Some _ =>
      let url := if env_set DATABASE_URL then "✅ Set" else "❌ Not Set" in
      let name :=
        if env_set DATABASE_NAME then default "" DATABASE_NAME
        else "❌ Not Set" in
      match names with
      | Listed collections =>
          ret {| Diagnostic.backend := "✅ Running";
                 Diagnostic.database := "✅ Connected & Working";
                 Diagnostic.database_url := Some url;
                 Diagnostic.database_name := Some name;
                 Diagnostic.connection_status := "Connected";
                 Diagnostic.collections := take 10 collections |}
      | ListingFailed e =>
          ret {| Diagnostic.backend := "✅ Running";
                 Diagnostic.database :=
                   "⚠️ Connected but Error: " ++ utf8_take 80 e;
                 Diagnostic.database_url := Some url;
                 Diagnostic.database_name := Some name;
                 Diagnostic.connection_status := "Connected";
                 Diagnostic.collections := [] |}
      end
  | None =>
      ret {| Diagnostic.backend := "✅ Running";
             Diagnostic.database := "⚠️ Available but not initialized";
             Diagnostic.database_url := None;
             Diagnostic.database_name := None;
             Diagnostic.connection_status := "Not Connected";
             Diagnostic.collections := [] |}
  end.

(** ** Notions the properties are stated with *)

Definition succeeded {A} (r : result A) : bool :=
  match r with
  | Return _ => true
  | Raise _ => false
  end.

(** The fields of a payload other than the two bounded ones pass their
    own checks. *)
Definition other_fields_ok `{Library} (j : StepThree.t) : bool :=
  EmailStr (StepThree.owner_email j)
  && VideoJob.url_ok (StepThree.product_image_url j)
  && VideoJob.url_ok (StepThree.brand_logo_url j)
  && VideoJob.url_ok (StepThree.brand_guideline_url j)
  && VideoJob.url_ok (StepThree.reference_image_url j).

Definition finalized_answer (job_id : string) : dict :=
  list_to_map [("id", VStr job_id); ("status", VStr "finalized")].

Definition finalize_update (o : ObjectId.t) : collection -> collection :=
  update_one [("_id", Is (VOid o))] "status" (VStr "finalized").

(** The creation time of a stored job, as the store reads it. *)
Definition created_at (j : document) : value := field "created_at" (to_dict j).

(** [a] was created no earlier than [b]. *)
Definition newer_or_same (a b : document) : Prop :=
  bson_leb (created_at b) (created_at a) = true.

(** The jobs of an owner, and the jobs still in progress, in the words of
    the specification. *)
Definition owned_by (email : string) (j : document) : bool :=
  bool_decide (field "owner_email" (to_dict j) = VStr email).

Definition in_progress (j : document) : bool :=
  bool_decide (field "status" (to_dict j) = VStr "queued"
               ∨ field "status" (to_dict j) = VStr "processing").

(** ** Example data

    A stand-in for the library functions and a few stores and payloads, to
    run the handlers on. *)

Definition demo_library : Library := {|
  sha256_hexdigest := fun s => "sha256:" ++ s;
  EmailStr := fun s =>
    match String.index 0 "@" s with
    | Some _ => true
    | None => false
    end;
  HttpUrl := fun s =>
    let rest :=
      if String.prefix "https://" s
      then Some (String.substring 8 (String.length s - 8) s)
      else if String.prefix "http://" s
      then Some (String.substring 7 (String.length s - 7) s)
      else None in
    match rest with
    | Some (String _ _ as r) =>
        match String.index 0 "/" r with
        | Some _ => Some s
        | None => Some (s ++ "/")
        end
    | _ => None
    end
|}.

Definition demo_plain_job : StepThree.t := {|
  StepThree.owner_email := "ada@example.com";
  StepThree.project_name := "Launch";
  StepThree.brand_name := "Acme";
  StepThree.brand_detail := "Tools";
  StepThree.creative_prompt := "A sunrise over the workshop";
  StepThree.target_audience := "makers";
  StepThree.video_style := "cinematic";
  StepThree.aspect_ratio := "9:16";
  StepThree.duration_seconds := 30;
  StepThree.product_image_url := None;
  StepThree.brand_logo_url := None;
  StepThree.brand_guideline_url := None;
  StepThree.reference_image_url := None
|}.

Definition demo_job : StepThree.t := {|
  StepThree.owner_email := "ada@example.com";
  StepThree.project_name := "Launch";
  StepThree.brand_name := "Acme";
  StepThree.brand_detail := "Tools";
  StepThree.creative_prompt := "A sunrise over the workshop";
  StepThree.target_audience := "makers";
  StepThree.video_style := "cinematic";
  StepThree.aspect_ratio := "16:9";
  StepThree.duration_seconds := 15;
  StepThree.product_image_url := Some "https://example.com/p.png";
  StepThree.brand_logo_url := None;
  StepThree.brand_guideline_url := None;
  StepThree.reference_image_url := None
|}.

Definition with_duration (z : Z) (j : StepThree.t) : StepThree.t := {|
  StepThree.owner_email := StepThree.owner_email j;
  StepThree.project_name := StepThree.project_name j;
  StepThree.brand_name := StepThree.brand_name j;
  StepThree.brand_detail := StepThree.brand_detail j;
  StepThree.creative_prompt := StepThree.creative_prompt j;
  StepThree.target_audience := StepThree.target_audience j;
  StepThree.video_style := StepThree.video_style j;
  StepThree.aspect_ratio := StepThree.aspect_ratio j;
  StepThree.duration_seconds := z;
  StepThree.product_image_url := StepThree.product_image_url j;
  StepThree.brand_logo_url := StepThree.brand_logo_url j;
  StepThree.brand_guideline_url := StepThree.brand_guideline_url j;
  StepThree.reference_image_url := StepThree.reference_image_url j
|}.

Definition with_aspect_ratio (a : string) (j : StepThree.t) : StepThree.t := {|
  StepThree.owner_email := StepThree.owner_email j;
  StepThree.project_name := StepThree.project_name j;
  StepThree.brand_name := StepThree.brand_name j;
  StepThree.brand_detail := StepThree.brand_detail j;
  StepThree.creative_prompt := StepThree.creative_prompt j;
  StepThree.target_audience := StepThree.target_audience j;
  StepThree.video_style := StepThree.video_style j;
  StepThree.aspect_ratio := a;
  StepThree.duration_seconds := StepThree.duration_seconds j;
  StepThree.product_image_url := StepThree.product_image_url j;
  StepThree.brand_logo_url := StepThree.brand_logo_url j;
  StepThree.brand_guideline_url := StepThree.brand_guideline_url j;
  StepThree.reference_image_url := StepThree.reference_image_url j
|}.

Definition demo_user : document := {|
  _id := ObjectId.of_N 7;
  fields := list_to_map [
    ("name", VStr "Ada");
    ("email", VStr "ada@example.com");
    ("password_hash", VStr "sha256:secret");
    ("avatar_url", VNull)
  ]
|}.

Definition demo_users : database := {["user" := [demo_user]]}.

Definition demo_signup : SignUpRequest.t := {|
  SignUpRequest.name := "Ada again";
  SignUpRequest.email := "ada@example.com";
  SignUpRequest.password := "other"
|}.

Definition demo_signin_unknown : SignInRequest.t := {|
  SignInRequest.email := "bob@example.com";
  SignInRequest.password := "secret"
|}.

Definition demo_signin_wrong : SignInRequest.t := {|
  SignInRequest.email := "ada@example.com";
  SignInRequest.password := "guess"
|}.

Definition demo_stored_job : document := {|
  _id := ObjectId.of_N 42;
  fields := list_to_map [
    ("owner_email", VStr "ada@example.com");
    ("status", VStr "processing");
    ("created_at", VDate 1000)
  ]
|}.

Definition demo_jobs : database := {["videojob" := [demo_stored_job]]}.

Definition demo_job_doc (n : N) (owner status : string) (at_ : Z) : document := {|
  _id := ObjectId.of_N n;
  fields := list_to_map [
    ("owner_email", VStr owner);
    ("status", VStr status);
    ("created_at", VDate at_)
  ]
|}.

Definition demo_dashboard : database :=
  {["videojob" := [
      demo_job_doc 1 "ada@example.com" "finalized" 10;
      demo_job_doc 2 "bob@example.com" "processing" 20;
      demo_job_doc 3 "ada@example.com" "processing" 30;
      demo_job_doc 4 "ada@example.com" "queued" 5
  ]]}.

(** Closes an equation between closed terms by running both sides, without
    writing their large normal forms into the goal. *)
Ltac run_both_sides :=
  match goal with
  | |- ?l = _ => vm_cast_no_check (@eq_refl _ l)
  end.

(** * Properties *)

(** ** Object identifiers print and parse back *)

Module ObjectIdFacts.
Import ObjectId.

Lemma byte_digits (b : Byte.byte) :
  let hi := hex_char (Byte.to_N b / 16)%N in
  let lo := hex_char (Byte.to_N b mod 16)%N in
  is_space hi = false
  ∧ hex_value hi = Some (Byte.to_N b / 16)%N
  ∧ hex_value lo = Some (Byte.to_N b mod 16)%N
  ∧ Byte.of_N (Byte.to_N b / 16 * 16 + Byte.to_N b mod 16) = Some b.
Proof. destruct b; vm_compute; repeat split. Qed.

Lemma length_hexlify (bs : list Byte.byte) :
  String.length (hexlify bs) = (2 * length bs)%nat.
Proof.
  induction bs as [| b bs IH]; [done |].
  cbn [hexlify String.length length]. rewrite IH. lia.
Qed.

Lemma fromhex_hexlify (bs : list Byte.byte) : fromhex (hexlify bs) = Some bs.
Proof.
  induction bs as [| b bs IH]; [done |].
  destruct (byte_digits b) as (Hsp & Hhi & Hlo & Hb).
  cbn [hexlify fromhex]. by rewrite Hsp, Hhi, Hlo, Hb, IH.
Qed.

(** [ObjectId(str(oid))] is [oid] again, for an identifier of twelve bytes. *)
Lemma parse_str (o : t) : length o = 12%nat -> parse (str o) = Some o.
Proof.
  intros Ho. unfold parse, str.
  rewrite length_hexlify, Ho. cbn [Nat.mul Nat.add Nat.eqb].
  apply fromhex_hexlify.
Qed.

Lemma to_N_byte_of (n : N) : Byte.to_N (byte_of n) = (n mod 256)%N.
Proof.
  unfold byte_of.
  destruct (Byte.of_N (n mod 256)) as [b |] eqn:Hb.
  - by apply Byte.to_of_N.
  - apply Byte.of_N_None_iff in Hb.
    pose proof (N.mod_upper_bound n 256). lia.
Qed.

Lemma length_be_bytes (k : nat) (n : N) (rest : list Byte.byte) :
  length (be_bytes k n rest) = (k + length rest)%nat.
Proof.
  revert n rest. induction k as [| k IH]; intros n rest; [done |].
  cbn [be_bytes]. rewrite IH. cbn [length]. lia.
Qed.

Lemma length_of_N (n : N) : length (of_N n) = 12%nat.
Proof. unfold of_N. by rewrite length_be_bytes. Qed.

Lemma to_N_from_be_bytes (k : nat) (n : N) (rest : list Byte.byte) (acc : N) :
  to_N_from (be_bytes k n rest) acc
  = to_N_from rest (acc * 256 ^ N.of_nat k + n mod 256 ^ N.of_nat k)%N.
Proof.
  revert n rest acc. induction k as [| k IH]; intros n rest acc.
  - cbn [be_bytes]. rewrite N.mod_1_r. f_equal. lia.
  - cbn [be_bytes]. rewrite IH. cbn [to_N_from]. rewrite to_N_byte_of.
    f_equal.
    rewrite Nat2N.inj_succ, N.pow_succ_r'.
    rewrite (N.Div0.mod_mul_r n 256 (256 ^ N.of_nat k)). lia.
Qed.

(** The bytes that spell a number below [width] spell that number. *)
Lemma to_N_of_N (n : N) : (n < width)%N -> to_N (of_N n) = n.
Proof.
  intros Hn. unfold to_N, of_N. rewrite to_N_from_be_bytes.
  cbn [to_N_from]. rewrite N.mul_0_l, N.add_0_l.
  apply N.mod_small. exact Hn.
Qed.

Lemma of_N_inj (m n : N) :
  (m < width)%N -> (n < width)%N -> of_N m = of_N n -> m = n.
Proof.
  intros Hm Hn Heq.
  rewrite <- (to_N_of_N m Hm), <- (to_N_of_N n Hn). by rewrite Heq.
Qed.

(** A text of 24 characters with whitespace between its bytes is taken,
    and gives fewer than twelve bytes; whitespace inside a byte is not. *)
Example parse_skips_whitespace :
  option_map (@length Byte.byte) (parse "00 11 22 33 44 55 66 77 ") = Some 8%nat
  ∧ parse "0 0112233445566778899aa" = None
  ∧ parse "00112233445566778899AABB" = parse "00112233445566778899aabb".
Proof. repeat split. Qed.

End ObjectIdFacts.

(** ** The store *)

Section store_facts.

Lemma to_dict_id (d : document) : to_dict d !! "_id" = Some (VOid (_id d)).
Proof. unfold to_dict. apply lookup_insert_eq. Qed.

Lemma to_dict_truthy (d : document) : truthy_dict (to_dict d) = true.
Proof.
  unfold truthy_dict, truthy. apply negb_true_iff, bool_decide_eq_false.
  intros Hempty. pose proof (to_dict_id d) as Hid.
  rewrite Hempty, lookup_empty in Hid. discriminate.
Qed.

Lemma to_dict_field (k : string) (d : document) :
  k ≠ "_id" -> to_dict d !! k = fields d !! k.
Proof. intros Hk. unfold to_dict. by rewrite lookup_insert_ne. Qed.

(** The filter [{"_id": oid}] picks the documents with that identifier. *)
Lemma matches_id (o : ObjectId.t) (d : document) :
  matches [("_id", Is (VOid o))] d = bool_decide (_id d = o).
Proof.
  unfold matches, field. cbn [forallb fst snd cond_holds].
  rewrite to_dict_id, andb_true_r. simpl.
  apply bool_decide_ext. split; congruence.
Qed.

Lemma find_one_id_some (o : ObjectId.t) (c : collection) (d : document) :
  find_one [("_id", Is (VOid o))] c = Some d -> d ∈ c ∧ _id d = o.
Proof.
  unfold find_one. intros Hf. apply find_some in Hf as [Hin Hm].
  rewrite matches_id in Hm. apply bool_decide_eq_true in Hm.
  split; [by apply list_elem_of_In | done].
Qed.

Lemma find_one_id_none (o : ObjectId.t) (c : collection) :
  o ∉ (_id <$> c) -> find_one [("_id", Is (VOid o))] c = None.
Proof.
  intros Hfree. unfold find_one.
  destruct (List.find _ c) as [d |] eqn:Hf; [| done].
  apply find_one_id_some in Hf as [Hin <-].
  destruct Hfree. by apply list_elem_of_fmap_2.
Qed.

Lemma find_one_id_is_some (o : ObjectId.t) (c : collection) :
  o ∈ (_id <$> c) -> is_Some (find_one [("_id", Is (VOid o))] c).
Proof.
  intros Hin. apply list_elem_of_fmap in Hin as (d & -> & Hd).
  unfold find_one. destruct (List.find _ c) as [e |] eqn:Hf; [by eexists |].
  apply list_elem_of_In in Hd.
  pose proof (find_none _ _ Hf d Hd) as Hm.
  rewrite matches_id, bool_decide_eq_false in Hm. done.
Qed.

Lemma find_app_fresh {A} (p : A -> bool) (l : list A) (x : A) :
  List.find p l = None -> List.find p (l ++ [x]) = List.find p [x].
Proof.
  induction l as [| y l IH]; [done |]. simpl.
  destruct (p y); [discriminate | exact IH].
Qed.

(** While the collection has not used up the identifiers, a new one has
    twelve bytes and no document of the collection carries it. *)
Lemma new_oid_spec (c : collection) :
  (N.of_nat (length c) < ObjectId.width)%N ->
  (new_oid c ∉ (_id <$> c)) ∧ length (new_oid c) = 12%nat.
Proof.
  intros Hroom. unfold new_oid.
  destruct (List.find _ _) as [o |] eqn:Hf.
  - apply find_some in Hf as [Hin Hfree].
    apply negb_true_iff, bool_decide_eq_false in Hfree.
    split; [done |].
    apply in_map_iff in Hin as (i & <- & _). apply ObjectIdFacts.length_of_N.
  - exfalso.
    assert (Hsub : ((fun k => ObjectId.of_N (N.of_nat k)) <$> seq 0 (S (length c)))
                   ⊆+ (_id <$> c)).
    { apply NoDup_submseteq.
      - apply NoDup_fmap_2_strong; [| apply NoDup_ListNoDup, seq_NoDup].
        intros i j Hi Hj Heq.
        apply list_elem_of_In, in_seq in Hi. apply list_elem_of_In, in_seq in Hj.
        apply Nat2N.inj. apply ObjectIdFacts.of_N_inj; [lia | lia | exact Heq].
      - intros o Ho. apply list_elem_of_In in Ho.
        pose proof (find_none _ _ Hf o Ho) as Hused.
        apply negb_false_iff, bool_decide_eq_true in Hused. done. }
    apply submseteq_length in Hsub.
    rewrite !length_fmap, length_seq in Hsub. lia.
Qed.

Lemma coll_insert (d : database) (name : string) (c : collection) :
  coll (<[name := c]> d) name = c.
Proof. unfold coll. by rewrite lookup_insert_eq. Qed.

Lemma coll_insert_ne (d : database) (name other : string) (c : collection) :
  name ≠ other -> coll (<[name := c]> d) other = coll d other.
Proof. intros Hne. unfold coll. by rewrite lookup_insert_ne. Qed.

Lemma coll_alter (f : collection -> collection) (d : database) (name : string) :
  f [] = [] -> coll (alter f name d) name = f (coll d name).
Proof.
  intros Hf. unfold coll. rewrite lookup_alter_eq.
  destruct (d !! name); simpl; [done | by rewrite Hf].
Qed.

End store_facts.

(** ** Running the handlers *)

Section handler_facts.
Context `{Library}.

Lemma with_id_lookup (d : document) (k : string) :
  k ≠ "_id" -> k ≠ "id" -> with_id d !! k = fields d !! k.
Proof.
  intros H1 H2. unfold with_id.
  rewrite lookup_delete_ne, lookup_insert_ne by done.
  by apply to_dict_field.
Qed.

Lemma with_id_id (d : document) :
  with_id d !! "id" = Some (VStr (ObjectId.str (_id d))).
Proof.
  unfold with_id. rewrite lookup_delete_ne by done. apply lookup_insert_eq.
Qed.

(** What [create_document] does to an available store. *)
Lemma create_document_run `{BaseModel A} (name : string) (data : A)
      (d : database) :
  create_document name data (Some d)
  = (Return (ObjectId.str (new_oid (coll d name))),
     Some (<[name := (coll d name ++
               [{| _id := new_oid (coll d name);
                   fields := model_dump data |}])%list]> d)).
Proof. reflexivity. Qed.

Lemma create_document_unavailable `{BaseModel A} (name : string) (data : A) :
  create_document name data None = (Raise DatabaseNotAvailable, None).
Proof. reflexivity. Qed.

(** [create_video] on a payload the record model accepts. *)
Lemma create_video_accepted (job : StepThree.t) (db : handle) :
  VideoJob.constraints_ok job "processing" = true ->
  exists vj,
    VideoJob.new job "processing" db = (Return vj, db)
    ∧ VideoJob.status vj = "processing"
    ∧ create_video job db =
        (let* _id := create_document "videojob" vj in
         ret (list_to_map [("id", VStr _id); ("status", VStr "processing")])) db.
Proof.
  intros Hok. unfold create_video, bind, VideoJob.new. rewrite Hok.
  eexists. split; [reflexivity |]. split; reflexivity.
Qed.

(** The record built from a payload without URLs dumps to the payload's
    fields, the status, and the four fields no request carries, unset. *)
Lemma create_video_accepted_plain (job : StepThree.t) (db : handle) :
  VideoJob.constraints_ok job "processing" = true ->
  StepThree.product_image_url job = None ->
  StepThree.brand_logo_url job = None ->
  StepThree.brand_guideline_url job = None ->
  StepThree.reference_image_url job = None ->
  exists vj,
    model_dump vj
    = <["status" := VStr "processing"]>
        (<["project_id" := VNull]>
           (<["thumbnail_url" := VNull]>
              (<["video_url" := VNull]>
                 (<["notes" := VNull]> (model_dump job)))))
    ∧ create_video job db =
        (let* _id := create_document "videojob" vj in
         ret (list_to_map [("id", VStr _id); ("status", VStr "processing")])) db.
Proof.
  intros Hok H1 H2 H3 H4. unfold create_video, bind, VideoJob.new. rewrite Hok.
  eexists. split; [| reflexivity].
  destruct job. cbn in H1, H2, H3, H4. subst. reflexivity.
Qed.

(** [create_video] on a payload the record model refuses: the
    [ValidationError] leaves the handler and nothing is written. *)
Lemma create_video_refused (job : StepThree.t) (db : handle) :
  VideoJob.constraints_ok job "processing" = false ->
  create_video job db = (Raise ValidationError, db).
Proof.
  intros Hbad. unfold create_video, bind, VideoJob.new. by rewrite Hbad.
Qed.

(** Fetching a stored job by the text of its identifier. *)
Lemma get_video_found (d : database) (job_id : string) (o : ObjectId.t)
      (doc : document) :
  ObjectId.parse job_id = Some o ->
  find_one [("_id", Is (VOid o))] (coll d "videojob") = Some doc ->
  get_video job_id (Some d) = (Return (with_id doc), Some d).
Proof.
  intros Hparse Hfind.
  unfold get_video, bind, get_db, try_except, ObjectId_new.
  rewrite Hparse. unfold ret. rewrite Hfind, to_dict_truthy. reflexivity.
Qed.

Lemma get_video_missing (d : database) (job_id : string) (o : ObjectId.t) :
  ObjectId.parse job_id = Some o ->
  find_one [("_id", Is (VOid o))] (coll d "videojob") = None ->
  get_video job_id (Some d) = (Raise (HTTPException 404 "Not found"), Some d).
Proof.
  intros Hparse Hfind.
  unfold get_video, bind, get_db, try_except, ObjectId_new.
  rewrite Hparse. unfold ret. rewrite Hfind. reflexivity.
Qed.

Lemma get_video_malformed (d : database) (job_id : string) :
  ObjectId.parse job_id = None ->
  get_video job_id (Some d) = (Raise (HTTPException 404 "Not found"), Some d).
Proof.
  intros Hparse.
  unfold get_video, bind, get_db, try_except, ObjectId_new.
  rewrite Hparse. reflexivity.
Qed.

End handler_facts.

(** ** Creating a job and fetching it *)

(** C1, as the code has it.  For a payload the record model accepts and
    that carries no asset URL, on an available store whose job collection
    has not used up the identifiers, [create_video] answers with a fresh id
    and the status ["processing"], and [get_video] on that id returns a
    record whose fields are exactly the submitted ones with their values,
    the status ["processing"], the id under ["id"], and [project_id],
    [thumbnail_url], [video_url] and [notes] as null. *)
Theorem create_then_get_exact `{Library} (d : database) (job : StepThree.t) :
  (N.of_nat (length (coll d "videojob")) < ObjectId.width)%N ->
  VideoJob.constraints_ok job "processing" = true ->
  StepThree.product_image_url job = None ->
  StepThree.brand_logo_url job = None ->
  StepThree.brand_guideline_url job = None ->
  StepThree.reference_image_url job = None ->
  exists (job_id : string) (d' : database) (record : dict),
    create_video job (Some d)
    = (Return (list_to_map [("id", VStr job_id); ("status", VStr "processing")]),
       Some d')
    ∧ get_video job_id (Some d') = (Return record, Some d')
    ∧ record
      = <["id" := VStr job_id]>
          (<["status" := VStr "processing"]>
             (<["project_id" := VNull]>
                (<["thumbnail_url" := VNull]>
                   (<["video_url" := VNull]>
                      (<["notes" := VNull]> (model_dump job)))))).
Proof.
  intros Hroom Hok H1 H2 H3 H4.
  destruct (create_video_accepted_plain job (Some d) Hok H1 H2 H3 H4)
    as (vj & Hdump & Hrun).
  pose proof (new_oid_spec (coll d "videojob") Hroom) as [Hfresh Hlen].
  set (c := coll d "videojob") in *. set (o := new_oid c) in *.
  set (doc := {| _id := o; fields := model_dump vj |}).
  exists (ObjectId.str o), (<["videojob" := (c ++ [doc])%list]> d), (with_id doc).
  split; [by rewrite Hrun |].
  split.
  { apply get_video_found with (o := o).
    - by apply ObjectIdFacts.parse_str.
    - rewrite coll_insert. unfold find_one.
      rewrite find_app_fresh by (by apply find_one_id_none).
      cbn [List.find]. rewrite matches_id. by rewrite bool_decide_eq_true_2. }
  unfold with_id, to_dict, doc. cbn [_id fields]. rewrite Hdump.
  rewrite (insert_insert_ne _ "id" "_id") by done.
  rewrite delete_insert_eq. apply delete_id. reflexivity.
Qed.

Lemma create_then_get_exact_witness :
  exists (job_id : string) (d' : database) (record : dict),
    @create_video demo_library demo_plain_job (Some ∅)
    = (Return (list_to_map [("id", VStr job_id); ("status", VStr "processing")]),
       Some d')
    ∧ get_video job_id (Some d') = (Return record, Some d')
    ∧ record
      = <["id" := VStr job_id]>
          (<["status" := VStr "processing"]>
             (<["project_id" := VNull]>
                (<["thumbnail_url" := VNull]>
                   (<["video_url" := VNull]>
                      (<["notes" := VNull]> (model_dump demo_plain_job)))))).
Proof.
  apply (@create_then_get_exact demo_library ∅ demo_plain_job).
  - vm_compute. reflexivity.
  - vm_compute. reflexivity.
  - reflexivity.
  - reflexivity.
  - reflexivity.
  - reflexivity.
Defined.

(** The fetched record is not the payload with a status added: it also
    holds the id and the four unset fields. *)
Lemma create_then_get_not_payload :
  exists (job_id : string) (d' : database) (record : dict),
    @create_video demo_library demo_plain_job (Some ∅)
    = (Return (list_to_map [("id", VStr job_id); ("status", VStr "processing")]),
       Some d')
    ∧ get_video job_id (Some d') = (Return record, Some d')
    ∧ record ≠ <["status" := VStr "processing"]> (model_dump demo_plain_job).
Proof.
  exists "000000000000000000000000",
         {["videojob" :=
             [{| _id := ObjectId.of_N 0;
                 fields :=
                   <["status" := VStr "processing"]>
                     (<["project_id" := VNull]>
                        (<["thumbnail_url" := VNull]>
                           (<["video_url" := VNull]>
                              (<["notes" := VNull]>
                                 (model_dump demo_plain_job))))) |}]]},
         (<["id" := VStr "000000000000000000000000"]>
            (<["status" := VStr "processing"]>
               (<["project_id" := VNull]>
                  (<["thumbnail_url" := VNull]>
                     (<["video_url" := VNull]>
                        (<["notes" := VNull]> (model_dump demo_plain_job))))))).
  split; [run_both_sides |].
  split; [run_both_sides |].
  intros Heq. apply (f_equal (fun m : dict => m !! "id")) in Heq.
  vm_compute in Heq. discriminate Heq.
Qed.

(** A submitted URL does not come back as the text it was: the record model
    holds the [Url] object the library made of it. *)
Example create_then_get_url_demo :
  match @create_video demo_library demo_job (Some ∅) with
  | (Return answer, h) =>
      match answer !! "id" with
      | Some (VStr job_id) =>
          match get_video job_id h with
          | (Return record, _) => record !! "product_image_url"
          | _ => None
          end
      | _ => None
      end
  | _ => None
  end = Some (VUrl "https://example.com/p.png")
  ∧ model_dump demo_job !! "product_image_url"
    = Some (VStr "https://example.com/p.png").
Proof. split; vm_compute; reflexivity. Qed.

(** The keys of a fetched job record: those of the payload, the status, the
    id, and the fields of the record model that no handler sets. *)
Lemma fetched_record_keys (o : ObjectId.t) (vj : VideoJob.t) (job : StepThree.t) :
  dom (with_id {| _id := o; fields := model_dump vj |})
  = dom (model_dump job)
    ∪ {["status"; "id"; "project_id"; "thumbnail_url"; "video_url"; "notes"]}.
Proof.
  unfold with_id, to_dict. cbn [_id fields].
  rewrite dom_delete_L, !dom_insert_L.
  unfold model_dump, VideoJob.dump, StepThree.dump.
  cbn [list_to_map foldr uncurry fst snd]. rewrite !dom_insert_L, !dom_empty_L.
  set_solver.
Qed.

(** ** What job creation accepts *)

Lemma constraints_ok_split `{Library} (j : StepThree.t) :
  VideoJob.constraints_ok j "processing"
  = other_fields_ok j
    && bool_decide (StepThree.aspect_ratio j ∈ VideoJob.aspect_ratios)
    && VideoJob.duration_ok (StepThree.duration_seconds j).
Proof.
  unfold VideoJob.constraints_ok, other_fields_ok.
  replace (bool_decide ("processing" ∈ VideoJob.statuses)) with true
    by (symmetry; apply bool_decide_eq_true; unfold VideoJob.statuses;
        set_solver).
  rewrite andb_true_r.
  destruct (EmailStr _), (bool_decide _), (VideoJob.duration_ok _),
    (VideoJob.url_ok (StepThree.product_image_url j)),
    (VideoJob.url_ok (StepThree.brand_logo_url j)),
    (VideoJob.url_ok (StepThree.brand_guideline_url j)),
    (VideoJob.url_ok (StepThree.reference_image_url j)); reflexivity.
Qed.

Lemma duration_ok_bounds (z : Z) :
  VideoJob.duration_ok z = true <-> (5 <= z <= 120)%Z.
Proof. unfold VideoJob.duration_ok. rewrite andb_true_iff. lia. Qed.

(** On an available store [create_video] succeeds exactly on the payloads
    the record model accepts. *)
Lemma create_video_succeeds `{Library} (d : database) (job : StepThree.t) :
  succeeded (fst (create_video job (Some d)))
  = VideoJob.constraints_ok job "processing".
Proof.
  destruct (VideoJob.constraints_ok job "processing") eqn:Hok.
  - destruct (create_video_accepted job (Some d) Hok) as (vj & _ & _ & Hrun).
    by rewrite Hrun.
  - by rewrite (create_video_refused job (Some d) Hok).
Qed.

(** C3. On an available store, a payload whose other fields pass is
    accepted by [create_video] exactly when [duration_seconds] lies in
    [5, 120] (both ends included) and [aspect_ratio] is one of the five
    listed values; a payload that is not accepted raises and leaves the
    store as it was. *)
Theorem create_video_accepts_exactly `{Library} (d : database)
        (job : StepThree.t) :
  other_fields_ok job = true ->
  (succeeded (fst (create_video job (Some d))) = true
   <-> (5 <= StepThree.duration_seconds job <= 120)%Z
       ∧ StepThree.aspect_ratio job ∈ ["1:1"; "9:16"; "16:9"; "4:5"; "21:9"])
  ∧ (succeeded (fst (create_video job (Some d))) = false ->
     create_video job (Some d) = (Raise ValidationError, Some d)).
Proof.
  intros Hother. rewrite create_video_succeeds. split.
  - rewrite constraints_ok_split, Hother, andb_true_l.
    rewrite andb_true_iff, bool_decide_eq_true, duration_ok_bounds.
    unfold VideoJob.aspect_ratios. tauto.
  - intros Hbad. by apply create_video_refused.
Qed.

Lemma create_video_accepts_exactly_witness :
  (succeeded (fst (@create_video demo_library demo_job (Some ∅))) = true
   <-> (5 <= StepThree.duration_seconds demo_job <= 120)%Z
       ∧ StepThree.aspect_ratio demo_job ∈ ["1:1"; "9:16"; "16:9"; "4:5"; "21:9"])
  ∧ (succeeded (fst (@create_video demo_library demo_job (Some ∅))) = false ->
     @create_video demo_library demo_job (Some ∅) = (Raise ValidationError, Some ∅)).
Proof.
  apply (@create_video_accepts_exactly demo_library ∅ demo_job).
  vm_compute. reflexivity.
Defined.

(** The boundary values of [duration_seconds], on any payload that is
    otherwise acceptable. *)
Lemma create_video_duration_boundaries `{Library} (d : database)
      (job : StepThree.t) :
  VideoJob.constraints_ok job "processing" = true ->
  succeeded (fst (create_video (with_duration 4 job) (Some d))) = false
  ∧ succeeded (fst (create_video (with_duration 121 job) (Some d))) = false
  ∧ succeeded (fst (create_video (with_duration 5 job) (Some d))) = true
  ∧ succeeded (fst (create_video (with_duration 120 job) (Some d))) = true.
Proof.
  intros Hok. rewrite constraints_ok_split in Hok.
  apply andb_true_iff in Hok as [Hok _].
  assert (Hdur : forall z,
    succeeded (fst (create_video (with_duration z job) (Some d)))
    = VideoJob.duration_ok z).
  { intros z. rewrite create_video_succeeds, constraints_ok_split.
    change (other_fields_ok (with_duration z job)) with (other_fields_ok job).
    cbn [with_duration StepThree.aspect_ratio StepThree.duration_seconds].
    by rewrite Hok. }
  rewrite !Hdur. repeat split.
Qed.

(** Each listed [aspect_ratio] is accepted and no other is. *)
Lemma create_video_aspect_ratios `{Library} (d : database) (job : StepThree.t)
      (a : string) :
  VideoJob.constraints_ok job "processing" = true ->
  succeeded (fst (create_video (with_aspect_ratio a job) (Some d))) = true
  <-> a ∈ ["1:1"; "9:16"; "16:9"; "4:5"; "21:9"].
Proof.
  intros Hok. rewrite constraints_ok_split in Hok.
  apply andb_true_iff in Hok as [Hok Hd].
  apply andb_true_iff in Hok as [Hother _].
  rewrite create_video_succeeds, constraints_ok_split.
  change (other_fields_ok (with_aspect_ratio a job)) with (other_fields_ok job).
  cbn [with_aspect_ratio StepThree.aspect_ratio StepThree.duration_seconds].
  rewrite Hother, Hd, andb_true_l, andb_true_r.
  apply bool_decide_eq_true.
Qed.

(** ** A payload that breaks a constraint of the record model *)

(** C2. A payload that has passed the request model (which asks only for
    texts and an integer) but breaks a constraint of the record model, be it
    the bound on [duration_seconds], the listed values of [aspect_ratio] or
    the form of a URL, makes the record model raise inside [create_video]:
    nothing is written, but the exception leaves the handler unconverted
    and the answer is a server fault, not a client error. *)
Theorem create_video_violation_is_fault `{Library} (db : handle)
        (job : StepThree.t) :
  VideoJob.constraints_ok job "processing" = false ->
  create_video job db = (Raise ValidationError, db)
  ∧ is_server_fault (fst (create_video job db)) = true
  ∧ is_client_error (fst (create_video job db)) = false.
Proof.
  intros Hbad. rewrite (create_video_refused job db Hbad). repeat split.
Qed.

Lemma create_video_violation_is_fault_witness :
  @create_video demo_library (with_duration 4 demo_job) (Some ∅)
  = (Raise ValidationError, Some ∅)
  ∧ is_server_fault
      (fst (@create_video demo_library (with_duration 4 demo_job) (Some ∅))) = true
  ∧ is_client_error
      (fst (@create_video demo_library (with_duration 4 demo_job) (Some ∅))) = false.
Proof.
  apply (@create_video_violation_is_fault demo_library (Some ∅)
           (with_duration 4 demo_job)).
  vm_compute. reflexivity.
Defined.

(** ** Signing up with an e-mail that is taken *)

Lemma find_is_some {A} (p : A -> bool) (l : list A) (x : A) :
  x ∈ l -> p x = true -> exists y, List.find p l = Some y ∧ y ∈ l ∧ p y = true.
Proof.
  intros Hin Hp.
  destruct (List.find p l) as [y |] eqn:Hf.
  - apply find_some in Hf as [Hy Hpy]. exists y.
    split; [done |]. split; [by apply list_elem_of_In | done].
  - apply list_elem_of_In in Hin.
    pose proof (find_none _ _ Hf x Hin) as Hn. congruence.
Qed.

Lemma matches_email (email : string) (u : document) :
  matches [("email", Is (VStr email))] u = true
  <-> to_dict u !! "email" = Some (VStr email).
Proof.
  unfold matches, field. cbn [forallb fst snd cond_holds].
  rewrite andb_true_r, bool_decide_eq_true.
  destruct (to_dict u !! "email") as [v |]; simpl; split; congruence.
Qed.

(** C4. On an initialised handle [signup] never gets to look the e-mail up:
    its truth test on the handle, [.. if db else None], raises the driver's
    [NotImplementedError], which leaves the handler unconverted.  Whether or
    not a user with the e-mail is stored, the answer is a server fault, not
    the 400 "Email already registered"; nothing is written. *)
Theorem signup_truth_test_is_fault `{Library} (d : database)
        (payload : SignUpRequest.t) :
  signup payload (Some d) = (Raise NotImplementedError, Some d)
  ∧ is_server_fault (fst (signup payload (Some d))) = true
  ∧ is_client_error (fst (signup payload (Some d))) = false.
Proof. unfold signup, bind, get_db, db_truth, raise. repeat split. Qed.

(** The same on a store that holds a user with the e-mail of the payload. *)
Example signup_duplicate_demo :
  (exists u, u ∈ coll demo_users "user"
             ∧ to_dict u !! "email"
               = Some (VStr (SignUpRequest.email demo_signup)))
  ∧ @signup demo_library demo_signup (Some demo_users)
    = (Raise NotImplementedError, Some demo_users).
Proof.
  split; [| vm_compute; reflexivity].
  exists demo_user.
  split; [vm_compute; apply list_elem_of_here | vm_compute; reflexivity].
Qed.

(** ** Fetching a job that is not there *)

(** C6. On an available store, [get_video] on a text that is not an object
    id, or on an id that no stored job carries, raises the 404 "Not found":
    a client error, not a server fault, and the store is as it was. *)
Theorem get_video_not_found (d : database) (job_id : string) :
  (ObjectId.parse job_id = None
   ∨ exists o, ObjectId.parse job_id = Some o ∧ o ∉ (_id <$> coll d "videojob")) ->
  get_video job_id (Some d) = (Raise (HTTPException 404 "Not found"), Some d)
  ∧ is_client_error (fst (get_video job_id (Some d))) = true
  ∧ is_server_fault (fst (get_video job_id (Some d))) = false.
Proof.
  intros Hcase.
  assert (Hrun : get_video job_id (Some d)
                 = (Raise (HTTPException 404 "Not found"), Some d)).
  { destruct Hcase as [Hbad | (o & Hparse & Hfree)].
    - by apply get_video_malformed.
    - apply get_video_missing with (o := o); [done |].
      by apply find_one_id_none. }
  rewrite Hrun. repeat split.
Qed.

Lemma get_video_not_found_witness :
  get_video "not-an-object-id" (Some demo_users)
  = (Raise (HTTPException 404 "Not found"), Some demo_users)
  ∧ is_client_error (fst (get_video "not-an-object-id" (Some demo_users))) = true
  ∧ is_server_fault (fst (get_video "not-an-object-id" (Some demo_users))) = false.
Proof.
  apply (get_video_not_found demo_users "not-an-object-id").
  left. vm_compute. reflexivity.
Defined.

(** ** Signing in *)

(** C8. On an available store, [signin] with an e-mail no stored user has,
    and [signin] with an e-mail whose stored user carries another password
    hash, raise one and the same 401 "Invalid credentials"; neither changes
    the store. *)
Theorem signin_failures_identical `{Library} (d : database)
        (unknown known : SignInRequest.t) (u : document) :
  (forall x, x ∈ coll d "user" ->
             to_dict x !! "email" ≠ Some (VStr (SignInRequest.email unknown))) ->
  find_one [("email", Is (VStr (SignInRequest.email known)))] (coll d "user")
  = Some u ->
  field "password_hash" (to_dict u)
  ≠ VStr (sha256_hexdigest (SignInRequest.password known)) ->
  signin unknown (Some d)
  = (Raise (HTTPException 401 "Invalid credentials"), Some d)
  ∧ signin known (Some d) = signin unknown (Some d)
  ∧ is_client_error (fst (signin known (Some d))) = true.
Proof.
  intros Habsent Hfound Hhash.
  assert (Hnone : find_one [("email", Is (VStr (SignInRequest.email unknown)))]
                           (coll d "user") = None).
  { unfold find_one.
    destruct (List.find _ _) as [x |] eqn:Hf; [| done].
    apply find_some in Hf as [Hin Hm].
    apply matches_email in Hm. apply list_elem_of_In in Hin.
    by destruct (Habsent x Hin). }
  assert (Hunknown : signin unknown (Some d)
                     = (Raise (HTTPException 401 "Invalid credentials"), Some d)).
  { unfold signin, bind, get_db. by rewrite Hnone. }
  assert (Hknown : signin known (Some d)
                   = (Raise (HTTPException 401 "Invalid credentials"), Some d)).
  { unfold signin, bind, get_db. rewrite Hfound, to_dict_truthy.
    cbn [negb]. by rewrite bool_decide_eq_true_2. }
  rewrite Hknown, Hunknown. repeat split.
Qed.

Lemma signin_failures_identical_witness :
  @signin demo_library demo_signin_unknown (Some demo_users)
  = (Raise (HTTPException 401 "Invalid credentials"), Some demo_users)
  ∧ @signin demo_library demo_signin_wrong (Some demo_users)
    = @signin demo_library demo_signin_unknown (Some demo_users)
  ∧ is_client_error
      (fst (@signin demo_library demo_signin_wrong (Some demo_users))) = true.
Proof.
  apply (@signin_failures_identical demo_library demo_users
           demo_signin_unknown demo_signin_wrong demo_user).
  - intros x Hx. vm_compute in Hx.
    apply list_elem_of_singleton in Hx. subst x. vm_compute. discriminate.
  - vm_compute. reflexivity.
  - vm_compute. discriminate.
Defined.

(** ** Writing without a store *)

(** C9. With the handle not initialised, [signup], [create_video] and
    [finalize_video] each end in a server fault, and the handle is still
    uninitialised afterwards: none of them returns as if it had written. *)
Theorem writes_refuse_without_store `{Library} (su : SignUpRequest.t)
        (job : StepThree.t) (job_id : string) :
  (is_server_fault (fst (signup su None)) = true ∧ snd (signup su None) = None)
  ∧ (is_server_fault (fst (create_video job None)) = true
     ∧ snd (create_video job None) = None)
  ∧ finalize_video job_id None
    = (Raise (HTTPException 500 "Database not available"), None).
Proof.
  split; [| split].
  - unfold signup, bind, get_db, User.new. cbn [truthy].
    destruct (EmailStr _); split; reflexivity.
  - unfold create_video, bind, VideoJob.new.
    destruct (VideoJob.constraints_ok _ _); split; reflexivity.
  - reflexivity.
Qed.

(** ** Finalizing *)

Lemma finalize_video_run (d : database) (job_id : string) (o : ObjectId.t) :
  ObjectId.parse job_id = Some o ->
  finalize_video job_id (Some d)
  = (Return (finalized_answer job_id),
     Some (alter (finalize_update o) "videojob" d)).
Proof.
  intros Hparse.
  unfold finalize_video, bind, get_db, try_except, ObjectId_new.
  rewrite Hparse. reflexivity.
Qed.

Lemma finalize_video_invalid (d : database) (job_id : string) :
  ObjectId.parse job_id = None ->
  finalize_video job_id (Some d) = (Raise (HTTPException 400 "Invalid id"), Some d).
Proof.
  intros Hparse.
  unfold finalize_video, bind, get_db, try_except, ObjectId_new.
  rewrite Hparse. reflexivity.
Qed.

Lemma update_one_absent (o : ObjectId.t) (c : collection) :
  o ∉ (_id <$> c) -> finalize_update o c = c.
Proof.
  unfold finalize_update. induction c as [| x c IH]; intros Hfree; [done |].
  cbn [update_one]. rewrite matches_id.
  rewrite fmap_cons, not_elem_of_cons in Hfree. destruct Hfree as [Hne Hfree].
  rewrite bool_decide_eq_false_2 by congruence.
  by rewrite IH.
Qed.

Lemma update_one_idempotent (o : ObjectId.t) (c : collection) :
  finalize_update o (finalize_update o c) = finalize_update o c.
Proof.
  unfold finalize_update. induction c as [| x c IH]; [done |].
  cbn [update_one]. rewrite matches_id.
  destruct (bool_decide (_id x = o)) eqn:Hx; cbn [update_one].
  - rewrite matches_id. cbn [set_field _id]. rewrite Hx.
    unfold set_field. cbn [_id fields]. by rewrite insert_insert_eq.
  - rewrite matches_id, Hx. by rewrite IH.
Qed.

Lemma update_one_found (o : ObjectId.t) (c : collection) :
  o ∈ (_id <$> c) ->
  exists x, find_one [("_id", Is (VOid o))] c = Some x
            ∧ find_one [("_id", Is (VOid o))] (finalize_update o c)
              = Some (set_field "status" (VStr "finalized") x).
Proof.
  unfold finalize_update, find_one.
  induction c as [| x c IH]; intros Hin; [by apply elem_of_nil in Hin |].
  cbn [update_one List.find]. rewrite matches_id.
  destruct (bool_decide (_id x = o)) eqn:Hx.
  - exists x. split; [done |]. cbn [List.find].
    rewrite matches_id. cbn [set_field _id]. by rewrite Hx.
  - rewrite fmap_cons, elem_of_cons in Hin. destruct Hin as [-> | Hin].
    + by rewrite bool_decide_eq_true_2 in Hx.
    + destruct (IH Hin) as (y & Hy & Hy'). exists y. split; [done |].
      cbn [List.find]. rewrite matches_id, Hx. exact Hy'.
Qed.

(** C10. On an available store, [finalize_video] on a well-formed id that
    no stored job carries returns the id with the status ["finalized"], and
    the store is exactly as it was. *)
Theorem finalize_absent_id (d : database) (job_id : string) (o : ObjectId.t) :
  ObjectId.parse job_id = Some o ->
  o ∉ (_id <$> coll d "videojob") ->
  finalize_video job_id (Some d)
  = (Return (list_to_map [("id", VStr job_id); ("status", VStr "finalized")]),
     Some d).
Proof.
  intros Hparse Hfree. rewrite (finalize_video_run d job_id o Hparse).
  f_equal. f_equal. apply alter_id. intros c Hc.
  apply update_one_absent. unfold coll in Hfree. by rewrite Hc in Hfree.
Qed.

Lemma finalize_absent_id_witness :
  finalize_video "00000000000000000000002A" (Some demo_users)
  = (Return (list_to_map [("id", VStr "00000000000000000000002A");
                          ("status", VStr "finalized")]),
     Some demo_users).
Proof.
  apply (finalize_absent_id demo_users "00000000000000000000002A" (ObjectId.of_N 42)).
  - vm_compute. reflexivity.
  - vm_compute. apply not_elem_of_nil.
Defined.

(** C5. On an available store, [finalize_video] on the id of a stored job
    returns the id with the status ["finalized"] and leaves that job with
    the status ["finalized"] (as the store holds it and as [get_video]
    returns it); finalizing the same id again returns the same answer and
    leaves the store as the first call left it. *)
Theorem finalize_existing_idempotent (d : database) (job_id : string)
        (o : ObjectId.t) :
  ObjectId.parse job_id = Some o ->
  o ∈ (_id <$> coll d "videojob") ->
  exists (d1 : database) (job : document),
    finalize_video job_id (Some d)
    = (Return (list_to_map [("id", VStr job_id); ("status", VStr "finalized")]),
       Some d1)
    ∧ find_one [("_id", Is (VOid o))] (coll d1 "videojob") = Some job
    ∧ to_dict job !! "status" = Some (VStr "finalized")
    ∧ get_video job_id (Some d1) = (Return (with_id job), Some d1)
    ∧ with_id job !! "status" = Some (VStr "finalized")
    ∧ finalize_video job_id (Some d1) = finalize_video job_id (Some d).
Proof.
  intros Hparse Hin.
  destruct (update_one_found o _ Hin) as (x & _ & Hfound).
  set (job := set_field "status" (VStr "finalized") x) in *.
  exists (alter (finalize_update o) "videojob" d), job.
  assert (Hcoll : coll (alter (finalize_update o) "videojob" d) "videojob"
                  = finalize_update o (coll d "videojob"))
    by (by apply coll_alter).
  assert (Hstatus : fields job !! "status" = Some (VStr "finalized"))
    by apply lookup_insert_eq.
  split; [by apply finalize_video_run |].
  split; [by rewrite Hcoll |].
  split; [by rewrite to_dict_field |].
  split; [apply get_video_found with (o := o); [done | by rewrite Hcoll] |].
  split; [by rewrite with_id_lookup |].
  rewrite !(finalize_video_run _ job_id o Hparse). f_equal. f_equal.
  rewrite alter_alter_eq. apply alter_ext. intros c _.
  apply update_one_idempotent.
Qed.

Lemma finalize_existing_idempotent_witness :
  exists (d1 : database) (job : document),
    finalize_video "00000000000000000000002a" (Some demo_jobs)
    = (Return (list_to_map [("id", VStr "00000000000000000000002a");
                            ("status", VStr "finalized")]),
       Some d1)
    ∧ find_one [("_id", Is (VOid (ObjectId.of_N 42)))] (coll d1 "videojob") = Some job
    ∧ to_dict job !! "status" = Some (VStr "finalized")
    ∧ get_video "00000000000000000000002a" (Some d1) = (Return (with_id job), Some d1)
    ∧ with_id job !! "status" = Some (VStr "finalized")
    ∧ finalize_video "00000000000000000000002a" (Some d1)
      = finalize_video "00000000000000000000002a" (Some demo_jobs).
Proof.
  apply (finalize_existing_idempotent demo_jobs "00000000000000000000002a" (ObjectId.of_N 42)).
  - vm_compute. reflexivity.
  - vm_compute. apply list_elem_of_here.
Defined.

(** ** The dashboard *)

(** The order of sort keys is total and transitive. *)
Section bson_order.

Lemma string_compare_le_trans (a b c : string) :
  String.compare a b ≠ Gt -> String.compare b c ≠ Gt -> String.compare a c ≠ Gt.
Proof.
  revert b c. induction a as [| x a IH]; intros [| y b] [| z c]; cbn;
    try congruence.
  unfold Ascii.compare.
  destruct (N.compare_spec (N_of_ascii x) (N_of_ascii y)) as [Hxy | Hxy | Hxy],
           (N.compare_spec (N_of_ascii y) (N_of_ascii z)) as [Hyz | Hyz | Hyz],
           (N.compare_spec (N_of_ascii x) (N_of_ascii z)) as [Hxz | Hxz | Hxz];
    try congruence; try lia; eauto.
Qed.

Lemma bson_leb_total (a b : value) : bson_leb a b = true ∨ bson_leb b a = true.
Proof.
  unfold bson_leb.
  destruct a, b; cbn; auto.
  - rewrite (Z.compare_antisym z z0). destruct (z ?= z0)%Z; cbn; auto.
  - rewrite (String.compare_antisym s s0). destruct (String.compare s0 s); cbn; auto.
  - rewrite (String.compare_antisym text text0).
    destruct (String.compare text0 text); cbn; auto.
  - rewrite (String.compare_antisym (ObjectId.str o) (ObjectId.str o0)).
    destruct (String.compare (ObjectId.str o0) (ObjectId.str o)); cbn; auto.
  - rewrite (Z.compare_antisym millis millis0).
    destruct (millis ?= millis0)%Z; cbn; auto.
Qed.

Lemma bson_leb_trans (a b c : value) :
  bson_leb a b = true -> bson_leb b c = true -> bson_leb a c = true.
Proof.
  unfold bson_leb.
  assert (Htext : forall x y z : string,
    match String.compare x y with Gt => false | _ => true end = true ->
    match String.compare y z with Gt => false | _ => true end = true ->
    match String.compare x z with Gt => false | _ => true end = true).
  { intros x y z Hxy Hyz.
    pose proof (string_compare_le_trans x y z) as Htrans.
    destruct (String.compare x y), (String.compare y z), (String.compare x z);
      try done; exfalso; apply Htrans; congruence. }
  destruct a as [| x | x | x | x | x], b as [| y | y | y | y | y],
           c as [| z | z | z | z | z]; cbn; try done.
  - destruct (Z.compare_spec x y), (Z.compare_spec y z), (Z.compare_spec x z);
      try done; lia.
  - apply Htext.
  - apply Htext.
  - apply Htext.
  - destruct (Z.compare_spec x y), (Z.compare_spec y z), (Z.compare_spec x z);
      try done; lia.
Qed.

End bson_order.

Section sorting.

Lemma insert_desc_perm (x : document) (l : list document) :
  Permutation (insert_desc "created_at" x l) (x :: l).
Proof.
  induction l as [| y l IH]; cbn [insert_desc]; [done |].
  destruct (bson_leb _ _); [done |].
  rewrite IH. apply perm_swap.
Qed.

Lemma sort_desc_perm (l : list document) :
  Permutation (sort_desc "created_at" l) l.
Proof.
  induction l as [| x l IH]; [done |].
  unfold sort_desc in *. cbn [foldr].
  rewrite insert_desc_perm. by constructor.
Qed.

Lemma insert_desc_sorted (x : document) (l : list document) :
  StronglySorted newer_or_same l ->
  StronglySorted newer_or_same (insert_desc "created_at" x l).
Proof.
  induction 1 as [| y l Hsorted IH Hall]; cbn [insert_desc].
  - repeat constructor.
  - destruct (bson_leb (field "created_at" (to_dict y))
                       (field "created_at" (to_dict x))) eqn:Hyx.
    + constructor; [by constructor |].
      constructor; [exact Hyx |].
      eapply Forall_impl; [exact Hall |]. intros z Hz.
      unfold newer_or_same in *. eapply bson_leb_trans; [exact Hz | exact Hyx].
    + constructor; [exact IH |].
      rewrite (insert_desc_perm x l).
      constructor; [| exact Hall].
      destruct (bson_leb_total (created_at y) (created_at x)) as [Hle | Hle];
        [unfold created_at in Hle; congruence | exact Hle].
Qed.

Lemma sort_desc_sorted (l : list document) :
  StronglySorted newer_or_same (sort_desc "created_at" l).
Proof.
  induction l as [| x l IH]; [constructor |].
  unfold sort_desc in *. cbn [foldr]. by apply insert_desc_sorted.
Qed.

End sorting.

Lemma matches_owner (email : string) (j : document) :
  matches [("owner_email", Is (VStr email))] j = owned_by email j.
Proof.
  unfold matches, owned_by. cbn [forallb fst snd cond_holds].
  apply andb_true_r.
Qed.

Lemma matches_owner_in_progress (email : string) (j : document) :
  matches [("owner_email", Is (VStr email));
           ("status", OneOf [VStr "queued"; VStr "processing"])] j
  = owned_by email j && in_progress j.
Proof.
  unfold matches, owned_by, in_progress. cbn [forallb fst snd cond_holds].
  rewrite andb_true_r. f_equal.
  apply bool_decide_ext. rewrite !elem_of_cons, elem_of_nil. tauto.
Qed.

(** C7. On an available store, for every owner e-mail, the answer of
    [dashboard_summary] has as [total] the number of that owner's jobs, as
    [processing] the number of them whose status is ["queued"] or
    ["processing"], and as [videos] at most 20 of that owner's jobs, newest
    first: they are the head of the owner's jobs put in order of creation
    time, newest first, and jobs are left out only once 20 are listed. *)
Theorem dashboard_summary_counts (d : database) (email : string) :
  exists (s : Summary) (latest older : list document),
    dashboard_summary email (Some d) = (Return s, Some d)
    ∧ total s = length (List.filter (owned_by email) (coll d "videojob"))
    ∧ processing s
      = length (List.filter (fun j => owned_by email j && in_progress j)
                            (coll d "videojob"))
    ∧ videos s = with_id <$> latest
    ∧ length latest <= 20
    ∧ Permutation (latest ++ older)
                  (List.filter (owned_by email) (coll d "videojob"))
    ∧ StronglySorted newer_or_same (latest ++ older)
    ∧ (older ≠ [] -> length latest = 20).
Proof.
  set (jobs := coll d "videojob").
  set (mine := find [("owner_email", Is (VStr email))] jobs).
  assert (Hmine : mine = List.filter (owned_by email) jobs).
  { unfold mine, find. apply List.filter_ext. intros j. apply matches_owner. }
  eexists.
  exists (take 20 (sort_desc "created_at" mine)),
         (drop 20 (sort_desc "created_at" mine)).
  split; [reflexivity |]. cbn [total processing videos].
  fold jobs. fold mine. rewrite take_drop.
  split; [unfold count_documents; fold mine; by rewrite Hmine |].
  split.
  { unfold count_documents, find. f_equal.
    apply List.filter_ext. intros j. apply matches_owner_in_progress. }
  split; [reflexivity |].
  split; [rewrite length_take; lia |].
  split; [rewrite <- Hmine; apply sort_desc_perm |].
  split; [apply sort_desc_sorted |].
  intros Holder. rewrite length_take.
  destruct (decide (20 <= length (sort_desc "created_at" mine))) as [| Hshort];
    [lia |].
  destruct Holder. apply drop_ge. lia.
Qed.

Example dashboard_summary_demo :
  dashboard_summary "ada@example.com" (Some demo_dashboard)
  = (Return {| total := 3; processing := 2;
               videos := with_id <$> [
                 demo_job_doc 3 "ada@example.com" "processing" 30;
                 demo_job_doc 1 "ada@example.com" "finalized" 10;
                 demo_job_doc 4 "ada@example.com" "queued" 5 ] |},
     Some demo_dashboard).
Proof. vm_compute. reflexivity. Qed.

(** * Further properties of the handlers *)

(** ** Identifiers *)

(** X1. A text that is not an object id is answered differently by the two
    job handlers: [finalize_video] raises the 400 "Invalid id", [get_video]
    the 404 "Not found"; neither changes the store. *)
Theorem malformed_id_answers (d : database) (job_id : string) :
  ObjectId.parse job_id = None ->
  finalize_video job_id (Some d)
  = (Raise (HTTPException 400 "Invalid id"), Some d)
  ∧ get_video job_id (Some d)
    = (Raise (HTTPException 404 "Not found"), Some d).
Proof.
  intros Hbad. split.
  - by apply finalize_video_invalid.
  - by apply get_video_malformed.
Qed.

Lemma malformed_id_answers_witness :
  finalize_video "12345" (Some demo_jobs)
  = (Raise (HTTPException 400 "Invalid id"), Some demo_jobs)
  ∧ get_video "12345" (Some demo_jobs)
    = (Raise (HTTPException 404 "Not found"), Some demo_jobs).
Proof.
  apply (malformed_id_answers demo_jobs "12345").
  vm_compute. reflexivity.
Defined.

(** X2. The handlers that only read, [signin], [dashboard_summary] and
    [get_video], hand the store back as they found it whatever they are
    given and whatever they answer, and without a store each answers the
    500 "Database not available". *)
Theorem reads_leave_store `{Library} (h : handle) (p : SignInRequest.t)
        (email job_id : string) :
  snd (signin p h) = h
  ∧ snd (dashboard_summary email h) = h
  ∧ snd (get_video job_id h) = h
  ∧ fst (signin p None) = Raise (HTTPException 500 "Database not available")
  ∧ fst (dashboard_summary email None)
    = Raise (HTTPException 500 "Database not available")
  ∧ fst (get_video job_id None)
    = Raise (HTTPException 500 "Database not available").
Proof.
  destruct h as [d |]; [| repeat split].
  split; [| split; [| split; [| repeat split]]].
  - unfold signin, bind, get_db.
    destruct (find_one _ _) as [u |]; [| reflexivity].
    rewrite to_dict_truthy. cbn [negb].
    destruct (bool_decide _); reflexivity.
  - reflexivity.
  - unfold get_video, bind, get_db, try_except, ObjectId_new.
    destruct (ObjectId.parse job_id) as [o |]; [| reflexivity].
    unfold ret. destruct (find_one _ _) as [doc |]; [| reflexivity].
    by rewrite to_dict_truthy.
Qed.



(** X4. The job handlers read the id text only as the object id it spells:
    two texts that spell the same object id (upper or lower case digits) get
    the same answer from [get_video] and the same store from
    [finalize_video]. *)
Theorem job_id_read_as_object_id (h : handle) (a b : string) :
  ObjectId.parse a = ObjectId.parse b ->
  get_video a h = get_video b h
  ∧ snd (finalize_video a h) = snd (finalize_video b h).
Proof.
  intros Hab. destruct h as [d |]; [| split; reflexivity]. split.
  - unfold get_video, bind, get_db, try_except, ObjectId_new. by rewrite Hab.
  - unfold finalize_video, bind, get_db, try_except, ObjectId_new.
    rewrite Hab. destruct (ObjectId.parse b); reflexivity.
Qed.

Lemma job_id_read_as_object_id_witness :
  get_video "00000000000000000000002A" (Some demo_jobs)
  = get_video "00000000000000000000002a" (Some demo_jobs)
  ∧ snd (finalize_video "00000000000000000000002A" (Some demo_jobs))
    = snd (finalize_video "00000000000000000000002a" (Some demo_jobs)).
Proof.
  apply (job_id_read_as_object_id (Some demo_jobs)
           "00000000000000000000002A" "00000000000000000000002a").
  vm_compute. reflexivity.
Defined.

(** ** Signing in *)

(** X5. On an available store, when the first stored user with the e-mail
    of the payload carries the hash of the payload's password, [signin]
    answers with exactly four keys: the message ["signed_in"], the e-mail,
    and the stored name and avatar (null where the user has none).  The
    password hash and the identifier are not in the answer. *)
Theorem signin_success `{Library} (d : database) (p : SignInRequest.t)
        (u : document) :
  find_one [("email", Is (VStr (SignInRequest.email p)))] (coll d "user")
  = Some u ->
  field "password_hash" (to_dict u)
  = VStr (sha256_hexdigest (SignInRequest.password p)) ->
  exists answer : dict,
    signin p (Some d) = (Return answer, Some d)
    ∧ answer !! "message" = Some (VStr "signed_in")
    ∧ answer !! "email" = Some (VStr (SignInRequest.email p))
    ∧ answer !! "name" = Some (field "name" (to_dict u))
    ∧ answer !! "avatar_url" = Some (field "avatar_url" (to_dict u))
    ∧ dom answer = {["message"; "email"; "name"; "avatar_url"]}.
Proof.
  intros Hfound Hhash. eexists. split.
  { unfold signin, bind, get_db. rewrite Hfound, to_dict_truthy. cbn [negb].
    rewrite bool_decide_eq_false_2 by (by intros Hne; apply Hne).
    reflexivity. }
  repeat split.
Qed.

Lemma signin_success_witness :
  exists answer : dict,
    @signin demo_library
      {| SignInRequest.email := "ada@example.com";
         SignInRequest.password := "secret" |} (Some demo_users)
    = (Return answer, Some demo_users)
    ∧ answer !! "message" = Some (VStr "signed_in")
    ∧ answer !! "email" = Some (VStr "ada@example.com")
    ∧ answer !! "name" = Some (field "name" (to_dict demo_user))
    ∧ answer !! "avatar_url" = Some (field "avatar_url" (to_dict demo_user))
    ∧ dom answer = {["message"; "email"; "name"; "avatar_url"]}.
Proof.
  apply (@signin_success demo_library demo_users
           {| SignInRequest.email := "ada@example.com";
              SignInRequest.password := "secret" |} demo_user).
  - vm_compute. reflexivity.
  - vm_compute. reflexivity.
Defined.

(** X6. On an available store [signin] succeeds exactly when the first
    stored user with the e-mail of the payload carries the hash of the
    payload's password; every other sign-in raises the 401
    "Invalid credentials".  A second user stored under the same e-mail is
    never looked at. *)
Theorem signin_accepts_exactly `{Library} (d : database)
        (p : SignInRequest.t) :
  (succeeded (fst (signin p (Some d))) = true
   <-> exists u,
         find_one [("email", Is (VStr (SignInRequest.email p)))] (coll d "user")
         = Some u
         ∧ field "password_hash" (to_dict u)
           = VStr (sha256_hexdigest (SignInRequest.password p)))
  ∧ (succeeded (fst (signin p (Some d))) = false ->
     signin p (Some d)
     = (Raise (HTTPException 401 "Invalid credentials"), Some d)).
Proof.
  unfold signin, bind, get_db.
  destruct (find_one _ _) as [u |] eqn:Hfound.
  - rewrite to_dict_truthy. cbn [negb].
    destruct (bool_decide _) eqn:Hhash.
    + apply bool_decide_eq_true in Hhash.
      split; [| reflexivity]. split; [discriminate |].
      intros (u' & Hu' & Heq). by injection Hu' as <-.
    + apply bool_decide_eq_false in Hhash.
      split; [| discriminate]. split; [intros _ | reflexivity].
      exists u. split; [reflexivity |].
      destruct (decide (field "password_hash" (to_dict u)
                        = VStr (sha256_hexdigest (SignInRequest.password p))));
        [done | by destruct Hhash].
  - split; [| reflexivity]. split; [discriminate |].
    by intros (u' & Hu' & _).
Qed.

(** ** Finalizing touches one status *)

Lemma update_one_split (o : ObjectId.t) (c : collection) :
  ((o ∉ (_id <$> c)) ∧ finalize_update o c = c)
  ∨ exists pre x post,
      c = (pre ++ x :: post)%list
      ∧ _id x = o
      ∧ (o ∉ (_id <$> pre))
      ∧ finalize_update o c
        = (pre ++ set_field "status" (VStr "finalized") x :: post)%list.
Proof.
  unfold finalize_update. induction c as [| y c IH].
  - left. split; [apply not_elem_of_nil | done].
  - cbn [update_one]. rewrite matches_id.
    destruct (bool_decide (_id y = o)) eqn:Hy.
    + apply bool_decide_eq_true in Hy. right. exists [], y, c.
      repeat split; [done | apply not_elem_of_nil].
    + apply bool_decide_eq_false in Hy.
      destruct IH as [[Hfree Hsame] | (pre & x & post & -> & Hx & Hpre & Hupd)].
      * left. split; [| by rewrite Hsame].
        rewrite fmap_cons, not_elem_of_cons. split; [congruence | done].
      * right. exists (y :: pre), x, post.
        split; [done |]. split; [done |].
        split; [| by rewrite Hupd].
        rewrite fmap_cons, not_elem_of_cons. split; [congruence | done].
Qed.

(** X7. On an available store, [finalize_video] on a well-formed id changes
    at most one thing: in the job collection, the first job that carries the
    id gets the status ["finalized"] and keeps its identifier and every
    other field; all other jobs, their order, and all other collections
    stay as they were. *)
Theorem finalize_touches_one_status (d : database) (job_id : string)
        (o : ObjectId.t) :
  ObjectId.parse job_id = Some o ->
  exists d1 : database,
    snd (finalize_video job_id (Some d)) = Some d1
    ∧ (forall name, name ≠ "videojob" -> d1 !! name = d !! name)
    ∧ (coll d1 "videojob" = coll d "videojob"
       ∨ exists pre x post,
           coll d "videojob" = (pre ++ x :: post)%list
           ∧ _id x = o
           ∧ (o ∉ (_id <$> pre))
           ∧ coll d1 "videojob"
             = (pre ++ {| _id := _id x;
                          fields := <["status" := VStr "finalized"]> (fields x) |}
                    :: post)%list).
Proof.
  intros Hparse. exists (alter (finalize_update o) "videojob" d).
  rewrite (finalize_video_run d job_id o Hparse). cbn [snd].
  split; [reflexivity |].
  split; [intros name Hne; by apply lookup_alter_ne |].
  rewrite coll_alter by reflexivity.
  destruct (update_one_split o (coll d "videojob"))
    as [[_ Hsame] | (pre & x & post & Hc & Hx & Hpre & Hupd)].
  - left. exact Hsame.
  - right. exists pre, x, post. by rewrite Hupd.
Qed.

Lemma finalize_touches_one_status_witness :
  exists d1 : database,
    snd (finalize_video "00000000000000000000002a" (Some demo_jobs)) = Some d1
    ∧ (forall name, name ≠ "videojob" -> d1 !! name = demo_jobs !! name)
    ∧ (coll d1 "videojob" = coll demo_jobs "videojob"
       ∨ exists pre x post,
           coll demo_jobs "videojob" = (pre ++ x :: post)%list
           ∧ _id x = (ObjectId.of_N 42)
           ∧ ((ObjectId.of_N 42) ∉ (_id <$> pre))
           ∧ coll d1 "videojob"
             = (pre ++ {| _id := _id x;
                          fields := <["status" := VStr "finalized"]> (fields x) |}
                    :: post)%list).
Proof.
  apply (finalize_touches_one_status demo_jobs "00000000000000000000002a" (ObjectId.of_N 42)).
  vm_compute. reflexivity.
Defined.

Lemma owned_by_set_status (email : string) (v : value) (x : document) :
  owned_by email (set_field "status" v x) = owned_by email x.
Proof.
  unfold owned_by, field, set_field, to_dict. cbn [_id fields].
  by rewrite !lookup_insert_ne by done.
Qed.

Lemma in_progress_finalized (x : document) :
  in_progress (set_field "status" (VStr "finalized") x) = false.
Proof.
  unfold in_progress, field, set_field, to_dict. cbn [_id fields].
  rewrite lookup_insert_ne, lookup_insert_eq by done.
  apply bool_decide_eq_false. intros [Hq | Hp]; discriminate.
Qed.

Lemma dashboard_summary_run (d : database) (email : string) :
  dashboard_summary email (Some d)
  = (Return {|
       total := length (List.filter (owned_by email) (coll d "videojob"));
       processing :=
         length (List.filter (fun j => owned_by email j && in_progress j)
                             (coll d "videojob"));
       videos :=
         with_id <$> take 20 (sort_desc "created_at"
                        (List.filter (owned_by email) (coll d "videojob"))) |},
     Some d).
Proof.
  unfold dashboard_summary, bind, get_db, ret, count_documents, find, limit.
  f_equal. f_equal. f_equal.
  - f_equal. apply List.filter_ext. intros j. apply matches_owner.
  - f_equal. apply List.filter_ext. intros j. apply matches_owner_in_progress.
  - do 3 f_equal. apply List.filter_ext. intros j. apply matches_owner.
Qed.

(** X8. Finalizing a job does not change any owner's [total] on the
    dashboard, nor the number of videos listed, and never raises an owner's
    [processing] count. *)
Theorem finalize_keeps_dashboard_totals (d : database) (job_id email : string)
        (o : ObjectId.t) :
  ObjectId.parse job_id = Some o ->
  exists (d1 : database) (before after : Summary),
    snd (finalize_video job_id (Some d)) = Some d1
    ∧ dashboard_summary email (Some d) = (Return before, Some d)
    ∧ dashboard_summary email (Some d1) = (Return after, Some d1)
    ∧ total after = total before
    ∧ processing after <= processing before
    ∧ length (videos after) = length (videos before).
Proof.
  intros Hparse. exists (alter (finalize_update o) "videojob" d).
  rewrite (finalize_video_run d job_id o Hparse), !dashboard_summary_run.
  do 2 eexists. split; [reflexivity |]. split; [reflexivity |].
  split; [reflexivity |]. cbn [total processing videos snd].
  rewrite coll_alter by reflexivity.
  rewrite !length_fmap, !length_take.
  rewrite !(Permutation_length (sort_desc_perm _)).
  assert (Hsame : length (List.filter (owned_by email)
                            (finalize_update o (coll d "videojob")))
                  = length (List.filter (owned_by email) (coll d "videojob"))
                  ∧ length (List.filter (fun j => owned_by email j && in_progress j)
                              (finalize_update o (coll d "videojob")))
                    <= length (List.filter
                                 (fun j => owned_by email j && in_progress j)
                                 (coll d "videojob"))).
  { destruct (update_one_split o (coll d "videojob"))
      as [[_ ->] | (pre & x & post & -> & _ & _ & ->)]; [done |].
    rewrite !List.filter_app, !length_app. cbn [List.filter].
    rewrite owned_by_set_status, in_progress_finalized, andb_false_r.
    destruct (owned_by email x); [| done].
    cbn [andb length]. destruct (in_progress x); cbn [length]; lia. }
  destruct Hsame as [Htotal Hproc]. rewrite Htotal. done.
Qed.

Lemma finalize_keeps_dashboard_totals_witness :
  exists (d1 : database) (before after : Summary),
    snd (finalize_video "000000000000000000000003" (Some demo_dashboard))
    = Some d1
    ∧ dashboard_summary "ada@example.com" (Some demo_dashboard)
      = (Return before, Some demo_dashboard)
    ∧ dashboard_summary "ada@example.com" (Some d1) = (Return after, Some d1)
    ∧ total after = total before
    ∧ processing after <= processing before
    ∧ length (videos after) = length (videos before).
Proof.
  apply (finalize_keeps_dashboard_totals demo_dashboard
           "000000000000000000000003" "ada@example.com" (ObjectId.of_N 3)).
  vm_compute. reflexivity.
Defined.

(** ** The dashboard shows an owner their own jobs *)

Lemma filter_both (email : string) (c : collection) :
  List.filter (fun j => owned_by email j && in_progress j) c
  = List.filter in_progress (List.filter (owned_by email) c).
Proof.
  induction c as [| j c IH]; [done |]. cbn [List.filter].
  destruct (owned_by email j); cbn [andb List.filter]; [| exact IH].
  destruct (in_progress j); by rewrite IH.
Qed.

(** X9. The dashboard of an owner depends on that owner's jobs only: two
    stores that hold the same jobs for the owner, in the same order, give the
    same summary, whatever other owners' jobs and other collections they
    hold. *)
Theorem dashboard_owner_isolation (d1 d2 : database) (email : string) :
  List.filter (owned_by email) (coll d1 "videojob")
  = List.filter (owned_by email) (coll d2 "videojob") ->
  fst (dashboard_summary email (Some d1)) = fst (dashboard_summary email (Some d2)).
Proof.
  intros Hsame. rewrite !dashboard_summary_run. cbn [fst].
  by rewrite !filter_both, Hsame.
Qed.

Lemma dashboard_owner_isolation_witness :
  fst (dashboard_summary "ada@example.com" (Some demo_dashboard))
  = fst (dashboard_summary "ada@example.com"
           (Some (<["user" := [demo_user]]>
                    (alter (List.filter (owned_by "ada@example.com"))
                           "videojob" demo_dashboard)))).
Proof.
  apply (dashboard_owner_isolation demo_dashboard
           (<["user" := [demo_user]]>
              (alter (List.filter (owned_by "ada@example.com"))
                     "videojob" demo_dashboard))
           "ada@example.com").
  vm_compute. reflexivity.
Defined.

(** X10. Every video the dashboard lists is a stored job of the owner asked
    for: it carries that owner's e-mail, the job's identifier as text under
    ["id"], and no ["_id"] key. *)
Theorem dashboard_lists_own_jobs (d : database) (email : string) :
  exists s : Summary,
    dashboard_summary email (Some d) = (Return s, Some d)
    ∧ Forall (fun v : dict =>
                v !! "owner_email" = Some (VStr email)
                ∧ v !! "_id" = None
                ∧ exists j, j ∈ coll d "videojob"
                            ∧ v !! "id" = Some (VStr (ObjectId.str (_id j))))
             (videos s).
Proof.
  eexists. split; [apply dashboard_summary_run |]. cbn [videos].
  apply Forall_fmap, Forall_forall. intros j Hj. cbn [compose].
  apply subseteq_take, list_elem_of_In in Hj.
  apply (Permutation_in _ (sort_desc_perm _)) in Hj.
  apply List.filter_In in Hj as [Hin Hown].
  split; [| split].
  - rewrite with_id_lookup, <- to_dict_field by done.
    apply bool_decide_eq_true in Hown. unfold field in Hown.
    destruct (to_dict j !! "owner_email") as [v |]; [| discriminate Hown].
    by rewrite <- Hown.
  - apply lookup_delete_eq.
  - exists j. split; [by apply list_elem_of_In | apply with_id_id].
Qed.

(** X11. The dashboard lists every job of an owner who has at most 20 and
    exactly 20 otherwise: the number of videos is the smaller of 20 and
    [total], and [processing] never exceeds [total]. *)
Theorem dashboard_lengths (d : database) (email : string) :
  exists s : Summary,
    dashboard_summary email (Some d) = (Return s, Some d)
    ∧ length (videos s) = Nat.min 20 (total s)
    ∧ processing s <= total s.
Proof.
  eexists. split; [apply dashboard_summary_run |]. cbn [videos total processing].
  split.
  - rewrite length_fmap, length_take.
    by rewrite (Permutation_length (sort_desc_perm _)).
  - rewrite filter_both. apply List.filter_length_le.
Qed.

(** ** The diagnostic handler *)

Lemma utf8_length_take (n : nat) (s : string) :
  utf8_length (utf8_take n s) <= n.
Proof.
  revert n. induction s as [| c s IH]; intros n; cbn [utf8_take utf8_length].
  - lia.
  - destruct (is_continuation c) eqn:Hc.
    + cbn [utf8_length]. rewrite Hc. apply IH.
    + destruct n as [| n]; cbn [utf8_length]; [lia |].
      rewrite Hc. specialize (IH n). lia.
Qed.

(** X12. [test_database] always answers, whatever the handle, the
    environment and the driver's listing, and never changes the store.  It
    lists at most ten collections, the first ten the driver named; of a
    failed listing it shows at most the first 80 characters of the error
    text; and it reports "Connected" exactly when the handle is
    initialised, also when the listing failed. *)
Theorem test_database_bounded (h : handle) (url name : option string)
        (names : listing) :
  exists r : Diagnostic.t,
    test_database url name names h = (Return r, h)
    ∧ length (Diagnostic.collections r) <= 10
    ∧ (forall l, h ≠ None -> names = Listed l ->
                 Diagnostic.collections r = take 10 l)
    ∧ (forall e, h ≠ None -> names = ListingFailed e ->
                 Diagnostic.database r
                 = "⚠️ Connected but Error: " ++ utf8_take 80 e
                 ∧ utf8_length (utf8_take 80 e) <= 80)
    ∧ (Diagnostic.connection_status r = "Connected" <-> h ≠ None).
Proof.
  destruct h as [d |]; [destruct names as [l | e] |]; eexists;
    (split; [reflexivity |]);
    cbn [Diagnostic.collections Diagnostic.database
         Diagnostic.connection_status length].
  - split; [rewrite length_take; lia |].
    split; [by intros l' _ [= ->] |].
    split; [by intros e _ [=] | done].
  - split; [lia |].
    split; [by intros l _ [=] |].
    split; [intros e' _ [= ->]; split; [done | apply utf8_length_take] | done].
  - split; [lia |].
    split; [by intros l Hh |].
    split; [by intros e Hh |].
    split; [discriminate | by intros Hh].
Qed.
